(** * Next-Unicorn analysis core: pattern catalog, regular expressions,
      Context7 verification and code organization.

    The development follows the TypeScript sources:
    - [src/analyzer/pattern-catalog.ts] : [PatternDefinition],
      [getPatternCatalog], [getPatternsForDomain];
    - the Context7 verifier ([verifyRecommendation], [retryWithBackoff],
      [verifyAllRecommendations]);
    - the code-organization analyzer, whose source is described by the
      specification and exercised by the test suites. *)

From Stdlib Require Import String Ascii List Bool Arith ZArith QArith Lia.
From Stdlib Require Import DecimalString Permutation.
From stdpp Require Import gmap strings list.

Local Open Scope string_scope.
Local Open Scope list_scope.
Local Open Scope nat_scope.

(* ===================================================================== *)
(** * Regular expressions (the subset of ECMAScript used by the catalog) *)
(* ===================================================================== *)

(** Texts are strings of code units below 256; the expressions of the
    catalog are written in ASCII, and neither the [u] nor the [v] flag is
    used. *)

Module Regex.

(** ** Abstract syntax *)

(** Members of a character class [[...]]. *)
Inductive ClassItem : Type :=
| CChar (c : ascii)
| CRange (lo hi : ascii)
| CSpace (neg : bool)            (* \s  and \S *)
| CWord (neg : bool)             (* \w  and \W *)
| CDigit (neg : bool).           (* \d  and \D *)

Inductive Node : Type :=
| NEmpty
| NChar (c : ascii)
| NDot
| NClass (invert : bool) (items : list ClassItem)
| NWordBoundary (neg : bool)     (* \b  and \B *)
| NStart                         (* ^ *)
| NEnd                           (* $ *)
| NSeq (a b : Node)
| NAlt (a b : Node)
| NRepeat (min : nat) (max : option nat) (greedy : bool) (body : Node)
| NGroup (capturing : bool) (body : Node).

(** ** Character predicates *)

Definition code (c : ascii) : nat := nat_of_ascii c.

Definition in_range (lo hi x : nat) : bool := (lo <=? x) && (x <=? hi).

Definition isDigit (c : ascii) : bool := in_range 48 57 (code c).
Definition isUpper (c : ascii) : bool := in_range 65 90 (code c).
Definition isLower (c : ascii) : bool := in_range 97 122 (code c).
Definition isAlnum (c : ascii) : bool := isDigit c || isUpper c || isLower c.

(** [\w] : the 63 basic word characters. *)
Definition isWordChar (c : ascii) : bool := isAlnum c || (code c =? 95).

(** [\s] : WhiteSpace and LineTerminator code units below 256
    (TAB, LF, VT, FF, CR, SP, NBSP). *)
Definition isSpace (c : ascii) : bool :=
  let n := code c in
  in_range 9 13 n || (n =? 32) || (n =? 160).

(** LineTerminator code units below 256: the characters [.] refuses. *)
Definition isLineTerminator (c : ascii) : bool :=
  let n := code c in (n =? 10) || (n =? 13).

(** Canonicalize of the specification, for the [i] flag: upper-casing of the
    ASCII letters; other code units are left alone. *)
Definition toUpper (c : ascii) : ascii :=
  if isLower c then ascii_of_nat (code c - 32) else c.

Definition toLower (c : ascii) : ascii :=
  if isUpper c then ascii_of_nat (code c + 32) else c.

Definition canon (ic : bool) (c : ascii) : ascii :=
  if ic then toUpper c else c.

Definition ascii_eqb (a b : ascii) : bool := code a =? code b.

(** ** Parser for regular-expression sources *)

Definition digitVal (c : ascii) : nat := code c - 48.

(** Reads a decimal number; [None] when no digit is present. *)
Fixpoint readDigits (acc : option nat) (s : list ascii) : option nat * list ascii :=
  match s with
  | c :: s' =>
      if isDigit c
      then readDigits (Some (10 * default 0 acc + digitVal c)) s'
      else (acc, s)
  | [] => (acc, s)
  end.

(** A braced quantifier [{n}], [{n,}] or [{n,m}], read after the opening
    brace. *)
Definition readBraces (s : list ascii) : option ((nat * option nat) * list ascii) :=
  match readDigits None s with
  | (Some n, "}"%char :: r) => Some ((n, Some n), r)
  | (Some n, ","%char :: r) =>
      match readDigits None r with
      | (Some m, "}"%char :: r') => if n <=? m then Some ((n, Some m), r') else None
      | (None, "}"%char :: r') => Some ((n, None), r')
      | _ => None
      end
  | _ => None
  end.

Definition readLazy (q : nat * option nat) (s : list ascii)
  : (nat * option nat * bool) * list ascii :=
  match s with
  | "?"%char :: r => ((q, false), r)
  | _ => ((q, true), s)
  end.

(** The quantifier that may follow an atom. *)
Definition readQuantifier (s : list ascii)
  : option (nat * option nat * bool) * list ascii :=
  match s with
  | "*"%char :: r => let '(q, r') := readLazy (0, None) r in (Some q, r')
  | "+"%char :: r => let '(q, r') := readLazy (1, None) r in (Some q, r')
  | "?"%char :: r => let '(q, r') := readLazy (0, Some 1) r in (Some q, r')
  | "{"%char :: r =>
      match readBraces r with
      | Some (q, r') => let '(q', r'') := readLazy q r' in (Some q', r'')
      | None => (None, s)
      end
  | _ => (None, s)
  end.

Definition quantify (a : Node) (s : list ascii) : Node * list ascii :=
  match readQuantifier s with
  | (Some (mn, mx, g), r) => (NRepeat mn mx g a, r)
  | (None, r) => (a, r)
  end.

(** Escapes shared by atoms and class members: a control escape or an
    identity escape of a punctuation character. *)
Definition controlEscape (c : ascii) : option ascii :=
  match c with
  | "n"%char => Some (ascii_of_nat 10)
  | "r"%char => Some (ascii_of_nat 13)
  | "t"%char => Some (ascii_of_nat 9)
  | "f"%char => Some (ascii_of_nat 12)
  | "v"%char => Some (ascii_of_nat 11)
  | "0"%char => Some (ascii_of_nat 0)
  | _ => if isAlnum c then None else Some c
  end.

Definition classEscape (c : ascii) : option ClassItem :=
  match c with
  | "s"%char => Some (CSpace false)
  | "S"%char => Some (CSpace true)
  | "w"%char => Some (CWord false)
  | "W"%char => Some (CWord true)
  | "d"%char => Some (CDigit false)
  | "D"%char => Some (CDigit true)
  | _ => None
  end.

(** One member of a class, without range formation. *)
Definition readClassAtom (s : list ascii) : option (ClassItem * list ascii) :=
  match s with
  | "\"%char :: c :: r =>
      match classEscape c with
      | Some it => Some (it, r)
      | None =>
          match c with
          | "b"%char => Some (CChar (ascii_of_nat 8), r)
          | _ => match controlEscape c with
                 | Some x => Some (CChar x, r)
                 | None => None
                 end
          end
      end
  | "\"%char :: [] => None
  | c :: r => Some (CChar c, r)
  | [] => None
  end.

(** The members of a class up to the closing bracket. *)
Fixpoint readClassItems (fuel : nat) (acc : list ClassItem) (s : list ascii)
  : option (list ClassItem * list ascii) :=
  match fuel with
  | O => None
  | S fuel' =>
      match s with
      | [] => None
      | "]"%char :: r => Some (rev acc, r)
      | _ =>
          match readClassAtom s with
          | None => None
          | Some (a, r) =>
              match r with
              | "-"%char :: "]"%char :: r' => Some (rev (CChar "-" :: a :: acc), r')
              | "-"%char :: r' =>
                  match readClassAtom r' with
                  | None => None
                  | Some (b, r'') =>
                      match a, b with
                      | CChar lo, CChar hi =>
                          if code lo <=? code hi
                          then readClassItems fuel' (CRange lo hi :: acc) r''
                          else None
                      | _, _ => None
                      end
                  end
              | _ => readClassItems fuel' (a :: acc) r
              end
          end
      end
  end.

Definition readClass (s : list ascii) : option (Node * list ascii) :=
  let '(inv, s') := match s with
                    | "^"%char :: r => (true, r)
                    | _ => (false, s)
                    end in
  match readClassItems (S (length s')) [] s' with
  | Some (items, r) => Some (NClass inv items, r)
  | None => None
  end.

(** A frame of the parser: the alternatives already closed in the current
    group and the terms of the alternative being read, both reversed. *)
Record Frame : Type := mkFrame {
  frameCapturing : bool;
  frameAlts : list Node;
  frameTerms : list Node
}.

Definition seqOf (terms : list Node) : Node :=
  match rev terms with
  | [] => NEmpty
  | t :: ts => fold_left NSeq ts t
  end.

Definition altOf (alts : list Node) (last : Node) : Node :=
  match rev (last :: alts) with
  | [] => NEmpty
  | a :: rest => fold_left NAlt rest a
  end.

Definition closeFrame (f : Frame) : Node :=
  altOf (frameAlts f) (seqOf (frameTerms f)).

Definition pushTerm (t : Node) (f : Frame) : Frame :=
  mkFrame (frameCapturing f) (frameAlts f) (t :: frameTerms f).

Definition nextAlt (f : Frame) : Frame :=
  mkFrame (frameCapturing f) (seqOf (frameTerms f) :: frameAlts f) [].

Definition emptyFrame (cap : bool) : Frame := mkFrame cap [] [].

(** The parser proper: one term per step. *)
Fixpoint parseLoop (fuel : nat) (stack : list Frame) (top : Frame) (s : list ascii)
  : option Node :=
  match fuel with
  | O => None
  | S fuel' =>
      let atom (a : Node) (r : list ascii) :=
        let '(t, r') := quantify a r in parseLoop fuel' stack (pushTerm t top) r' in
      match s with
      | [] => match stack with
              | [] => Some (closeFrame top)
              | _ :: _ => None
              end
      | "("%char :: "?"%char :: ":"%char :: r => parseLoop fuel' (top :: stack) (emptyFrame false) r
      | "("%char :: "?"%char :: _ => None
      | "("%char :: r => parseLoop fuel' (top :: stack) (emptyFrame true) r
      | ")"%char :: r =>
          match stack with
          | [] => None
          | parent :: stack' =>
              let '(t, r') := quantify (NGroup (frameCapturing top) (closeFrame top)) r in
              parseLoop fuel' stack' (pushTerm t parent) r'
          end
      | "|"%char :: r => parseLoop fuel' stack (nextAlt top) r
      | "*"%char :: _ => None
      | "+"%char :: _ => None
      | "?"%char :: _ => None
      | "{"%char :: r =>
          match readBraces r with
          | Some _ => None
          | None => atom (NChar "{") r
          end
      | "."%char :: r => atom NDot r
      | "^"%char :: r => parseLoop fuel' stack (pushTerm NStart top) r
      | "$"%char :: r => parseLoop fuel' stack (pushTerm NEnd top) r
      | "["%char :: r =>
          match readClass r with
          | Some (a, r') => atom a r'
          | None => None
          end
      | "\"%char :: c :: r =>
          match classEscape c with
          | Some it => atom (NClass false [it]) r
          | None =>
              match c with
              | "b"%char => parseLoop fuel' stack (pushTerm (NWordBoundary false) top) r
              | "B"%char => parseLoop fuel' stack (pushTerm (NWordBoundary true) top) r
              | _ => match controlEscape c with
                     | Some x => atom (NChar x) r
                     | None => None
                     end
              end
          end
      | "\"%char :: [] => None
      | c :: r => atom (NChar c) r
      end
  end.

Definition parse (src : string) : option Node :=
  let s := list_ascii_of_string src in
  parseLoop (S (length s)) [] (emptyFrame false) s.

(** ** Matching

    The matcher follows the continuation semantics of the language
    specification: [matchNode r k p s] tries [r] at the position whose
    previous character is [p] and whose remaining input is [s], and hands
    every end position to the continuation [k].  Only the existence of a
    match is computed ([RegExp.prototype.test]), so the order in which the
    alternatives of a choice or the iterations of a quantifier are tried is
    immaterial, and greedy and lazy quantifiers agree. *)

Record Flags : Type := mkFlags {
  ignoreCase : bool;
  multiline : bool;
  dotAll : bool
}.

Definition hasFlag (c : ascii) (flags : string) : bool :=
  existsb (ascii_eqb c) (list_ascii_of_string flags).

Definition readFlags (flags : string) : Flags :=
  mkFlags (hasFlag "i" flags) (hasFlag "m" flags) (hasFlag "s" flags).

Section Matcher.

Variable fl : Flags.

Definition charEq (a x : ascii) : bool :=
  ascii_eqb (canon (ignoreCase fl) a) (canon (ignoreCase fl) x).

Definition rangeHas (lo hi x : ascii) : bool :=
  in_range (code lo) (code hi) (code x).

(** Does the character set denoted by one class member contain a character
    whose canonical form is that of [x]? *)
Definition itemMatches (it : ClassItem) (x : ascii) : bool :=
  match it with
  | CChar a => charEq a x
  | CRange lo hi =>
      rangeHas lo hi x ||
      (ignoreCase fl && (rangeHas lo hi (toUpper x) || rangeHas lo hi (toLower x)))
  | CSpace neg => xorb neg (isSpace x)
  | CWord neg => xorb neg (isWordChar x)
  | CDigit neg => xorb neg (isDigit x)
  end.

Definition classMatches (invert : bool) (items : list ClassItem) (x : ascii) : bool :=
  xorb invert (existsb (fun it => itemMatches it x) items).

Definition dotMatches (x : ascii) : bool :=
  dotAll fl || negb (isLineTerminator x).

Definition wordAt (o : option ascii) : bool :=
  match o with
  | Some c => isWordChar c
  | None => false
  end.

Definition atStart (p : option ascii) : bool :=
  match p with
  | None => true
  | Some c => multiline fl && isLineTerminator c
  end.

Definition atEnd (s : list ascii) : bool :=
  match s with
  | [] => true
  | c :: _ => multiline fl && isLineTerminator c
  end.

Definition Cont : Type := option ascii -> list ascii -> bool.

Definition oneChar (ok : ascii -> bool) (k : Cont) (s : list ascii) : bool :=
  match s with
  | x :: s' => if ok x then k (Some x) s' else false
  | [] => false
  end.

Fixpoint matchNode (r : Node) (k : Cont) (p : option ascii) (s : list ascii) : bool :=
  match r with
  | NEmpty => k p s
  | NChar a => oneChar (charEq a) k s
  | NDot => oneChar dotMatches k s
  | NClass inv items => oneChar (classMatches inv items) k s
  | NWordBoundary neg =>
      if xorb neg (xorb (wordAt p) (wordAt (head s))) then k p s else false
  | NStart => if atStart p then k p s else false
  | NEnd => if atEnd s then k p s else false
  | NSeq a b => matchNode a (matchNode b k) p s
  | NAlt a b => if matchNode a k p s then true else matchNode b k p s
  | NGroup _ a => matchNode a k p s
  | NRepeat mn mx _ a =>
      (* the optional iterations: at most [n] more, each one consuming input *)
      let optional :=
        fix optional (n : nat) (p : option ascii) (s : list ascii) : bool :=
          if k p s then true else
          match n with
          | O => false
          | S n' =>
              matchNode a
                (fun p' s' =>
                   if length s' <? length s then optional n' p' s' else false) p s
          end in
      (* the [mn] mandatory iterations *)
      let mandatory :=
        fix mandatory (m : nat) (p : option ascii) (s : list ascii) : bool :=
          match m with
          | O =>
              let n := match mx with
                       | Some hi => hi - mn
                       | None => length s
                       end in
              optional n p s
          | S m' => matchNode a (mandatory m') p s
          end in
      mandatory mn p s
  end.

(** Is there a match that starts exactly at this position? *)
Definition matchesHere (r : Node) (p : option ascii) (s : list ascii) : bool :=
  matchNode r (fun _ _ => true) p s.

(** Offset of the leftmost match ([RegExp.prototype.exec(...).index]). *)
Fixpoint searchFrom (r : Node) (i : nat) (p : option ascii) (s : list ascii) : option nat :=
  if matchesHere r p s then Some i
  else match s with
       | [] => None
       | c :: s' => searchFrom r (S i) (Some c) s'
       end.

End Matcher.

(** A [RegExp] object as the literal gives it: source text and flags. *)
Record RegExp : Type := mkRegExp {
  source : string;
  flags : string
}.

(** [exec]: the index of the leftmost match; an unsupported source gives
    [None] as well. *)
Definition exec (re : RegExp) (input : string) : option nat :=
  match parse (source re) with
  | Some r => searchFrom (readFlags (flags re)) r 0 None (list_ascii_of_string input)
  | None => None
  end.

Definition test (re : RegExp) (input : string) : bool :=
  match exec re input with
  | Some _ => true
  | None => false
  end.

End Regex.

(* ===================================================================== *)
(** * The pattern catalog ([src/analyzer/pattern-catalog.ts])            *)
(* ===================================================================== *)

Module PatternCatalog.

Import Regex.

(** A pattern that identifies hand-rolled code; it carries no library
    recommendation data. *)
Record PatternDefinition : Type := mkPatternDefinition {
  id : string;                    (* unique identifier *)
  domain : string;                (* the Vibe Coding domain *)
  description : string;
  filePatterns : list string;     (* glob patterns for files to scan *)
  codePatterns : list RegExp;     (* expressions matching hand-rolled code *)
  confidenceBase : Q              (* base confidence score (0-1) *)
}.

(** The double-quote character cannot be written inside a string literal
    here, so the expression sources below spell it [~]; [re] puts the
    double quote back.  No expression of the catalog uses [~] itself. *)
Definition dquote : ascii := ascii_of_nat 34.

Definition unquote (src : string) : string :=
  string_of_list_ascii
    (map (fun c => if ascii_eqb c "~" then dquote else c) (list_ascii_of_string src)).

Definition re (src flags : string) : RegExp := mkRegExp (unquote src) flags.

Local Open Scope Q_scope.

(** The full pattern catalog, in source order.  The function takes no
    argument and builds the array afresh at each call. *)
Definition getPatternCatalog (_ : unit) : list PatternDefinition :=
  [
    (* A. UX / Design *)
    (* ux-completeness - General UX patterns (parent) *)
    {| id := "ux-manual-loading-states";
       domain := "empty-loading-error-states";
       description := "Hand-rolled loading state management without skeleton/spinner library";
       filePatterns := ["**/*.tsx"; "**/*.jsx"];
       codePatterns := [
         re "isLoading\s*\?\s*.*(?:Loading|Spinner|\.\.\.)" "i";
         re "useState\s*<\s*boolean\s*>\s*\(\s*(?:true|false)\s*\).*loading" "i"
       ];
       confidenceBase := 0.55 |};
    (* a11y-accessibility *)
    {| id := "a11y-manual-click-handler-div";
       domain := "a11y-accessibility";
       description := "Clickable div/span without keyboard accessibility";
       filePatterns := ["**/*.tsx"; "**/*.jsx"];
       codePatterns := [
         re "<div\s[^>]*onClick\s*=\s*\{" "";
         re "<span\s[^>]*onClick\s*=\s*\{" ""
       ];
       confidenceBase := 0.6 |};
    {| id := "a11y-manual-focus-management";
       domain := "a11y-accessibility";
       description := "Hand-rolled focus management and keyboard trap";
       filePatterns := ["**/*.tsx"; "**/*.jsx"; "**/*.ts"; "**/*.js"];
       codePatterns := [
         re "\.focus\s*\(\s*\)[\s\S]{0,200}(?:tabIndex|keyCode|keyDown)" "i";
         re "addEventListener\s*\(\s*['~`]keydown['~`][\s\S]{0,200}(?:Tab|Escape|27|9)\b" "";
         re "document\s*\.\s*activeElement" ""
       ];
       confidenceBase := 0.55 |};
    (* forms-ux *)
    {| id := "forms-manual-state-tracking";
       domain := "forms-ux";
       description := "Multiple useState hooks for individual form fields";
       filePatterns := ["**/*.tsx"; "**/*.jsx"];
       codePatterns := [
         re "const\s*\[\s*\w+,\s*set\w+\s*\]\s*=\s*useState\s*\(\s*['~`]{2}\s*\)[\s\S]{0,200}onChange" "";
         re "e\s*\.\s*target\s*\.\s*value[\s\S]{0,50}set\w+\s*\(\s*e\s*\.\s*target\s*\.\s*value\s*\)" ""
       ];
       confidenceBase := 0.65 |};
    {| id := "forms-manual-submit-handler";
       domain := "forms-ux";
       description := "Hand-rolled form submission with manual preventDefault and state collection";
       filePatterns := ["**/*.tsx"; "**/*.jsx"];
       codePatterns := [
         re "handleSubmit[\s\S]{0,100}preventDefault\s*\(\s*\)[\s\S]{0,200}fetch\s*\(" "";
         re "onSubmit[\s\S]{0,100}e\s*\.\s*preventDefault[\s\S]{0,200}(?:setLoading|setError)" ""
       ];
       confidenceBase := 0.6 |};
    (* validation-feedback *)
    {| id := "validation-manual-form-errors";
       domain := "validation-feedback";
       description := "Hand-rolled form validation with manual error state tracking";
       filePatterns := ["**/*.tsx"; "**/*.jsx"; "**/*.ts"; "**/*.js"];
       codePatterns := [
         re "setError\s*\(\s*['~`]" "";
         re "errors\s*\[\s*['~`]\w+['~`]\s*\]" "";
         re "validate\w*\s*=\s*\(\s*\)\s*=>" ""
       ];
       confidenceBase := 0.7 |};
    (* notifications-inapp *)
    {| id := "notifications-manual-alert";
       domain := "notifications-inapp";
       description := "Using window.alert/confirm/prompt instead of a toast/notification library";
       filePatterns := ["**/*.ts"; "**/*.tsx"; "**/*.js"; "**/*.jsx"];
       codePatterns := [
         re "window\s*\.\s*alert\s*\(" "";
         re "window\s*\.\s*confirm\s*\(" "";
         re "window\s*\.\s*prompt\s*\(" ""
       ];
       confidenceBase := 0.75 |};
    (* design-system *)
    {| id := "design-hardcoded-colors";
       domain := "design-system";
       description := "Hardcoded hex/rgb colors in JSX/TSX instead of CSS variables or design tokens";
       filePatterns := ["**/*.tsx"; "**/*.jsx"];
       codePatterns := [
         re "(?:color|background|border|fill|stroke)\s*[:=]\s*['~`]#[0-9a-fA-F]{3,8}['~`]" "";
         re "(?:color|background|border)\s*[:=]\s*['~`]rgb\(" "";
         re "className\s*=.*(?:bg|text|border)-\[#[0-9a-fA-F]{3,8}\]" ""
       ];
       confidenceBase := 0.6 |};
    {| id := "design-inline-styles";
       domain := "design-system";
       description := "Inline style objects in JSX instead of utility classes or design tokens";
       filePatterns := ["**/*.tsx"; "**/*.jsx"];
       codePatterns := [
         re "style\s*=\s*\{\s*\{" "";
         re "style\s*=\s*\{[^}]*(?:padding|margin|fontSize|color|width|height)\s*:" ""
       ];
       confidenceBase := 0.55 |};
    {| id := "design-no-cn-utility";
       domain := "design-system";
       description := "String concatenation for className instead of cn()/clsx/cva utility";
       filePatterns := ["**/*.tsx"; "**/*.jsx"];
       codePatterns := [
         re "className\s*=\s*\{[^}]*`[^`]*\$\{" "";
         re "className\s*=\s*\{[^}]*\+\s*['~`]" "";
         re "className\s*=\s*\{.*\?\s*['~`][^'~]*['~`]\s*:\s*['~`]" ""
       ];
       confidenceBase := 0.6 |};
    (* B. SEO / i18n / Content *)
    (* seo *)
    {| id := "seo-manual-meta-tags";
       domain := "seo";
       description := "Hand-rolled <meta> tag injection via DOM manipulation";
       filePatterns := ["**/*.ts"; "**/*.tsx"; "**/*.js"; "**/*.jsx"];
       codePatterns := [
         re "document\s*\.\s*createElement\s*\(\s*['~`]meta['~`]\s*\)" "";
         re "document\s*\.\s*head\s*\.\s*appendChild" "";
         re "document\s*\.\s*querySelector\s*\(\s*['~`]meta\[" ""
       ];
       confidenceBase := 0.75 |};
    {| id := "seo-manual-sitemap";
       domain := "seo";
       description := "Hand-rolled XML sitemap generation";
       filePatterns := ["**/*.ts"; "**/*.js"; "**/*.xml"];
       codePatterns := [
         re "<\?xml\s+version" "";
         re "<urlset\s+xmlns" "";
         re "writeFileSync\s*\(.*sitemap" "i"
       ];
       confidenceBase := 0.8 |};
    (* i18n *)
    {| id := "i18n-manual-pluralization";
       domain := "i18n";
       description := "Hand-rolled pluralization logic (if/else or ternary on count)";
       filePatterns := ["**/*.ts"; "**/*.tsx"; "**/*.js"; "**/*.jsx"];
       codePatterns := [
         re "count\s*[=!]==?\s*1\s*\?\s*['~`].*['~`]\s*:\s*['~`].*['~`]" "";
         re "\.length\s*[=!]==?\s*1\s*\?\s*['~`].*['~`]\s*:\s*['~`].*['~`]" ""
       ];
       confidenceBase := 0.7 |};
    {| id := "i18n-manual-locale-detection";
       domain := "i18n";
       description := "Manual navigator.language or Accept-Language header parsing";
       filePatterns := ["**/*.ts"; "**/*.tsx"; "**/*.js"; "**/*.jsx"];
       codePatterns := [
         re "navigator\s*\.\s*language" "";
         re "accept-language" "i";
         re "toLocaleDateString\s*\(" ""
       ];
       confidenceBase := 0.65 |};
    (* content-marketing *)
    {| id := "content-manual-markdown-parsing";
       domain := "content-marketing";
       description := "Hand-rolled markdown parsing with regex or string manipulation";
       filePatterns := ["**/*.ts"; "**/*.js"; "**/*.tsx"; "**/*.jsx"];
       codePatterns := [
         re "\.replace\s*\(\s*\/\s*#" "";
         re "\.replace\s*\(\s*\/\s*\\\*\\\*" "";
         re "\.split\s*\(\s*['~`]\\n['~`]\s*\)\s*\.\s*map" ""
       ];
       confidenceBase := 0.65 |};
    {| id := "content-manual-mdx-processing";
       domain := "content-marketing";
       description := "Hand-rolled MDX/markdown file processing pipeline";
       filePatterns := ["**/*.ts"; "**/*.js"];
       codePatterns := [
         re "readFileSync\s*\(.*\.mdx?\b" "i";
         re "glob\s*\(.*\.mdx?\b" "i";
         re "frontmatter|gray-matter" "i"
       ];
       confidenceBase := 0.6 |};
    (* C. Growth & Data *)
    (* ab-testing-experimentation (was: growth-hacking) *)
    {| id := "ab-test-manual-random-split";
       domain := "ab-testing-experimentation";
       description := "Hand-rolled A/B testing with Math.random() or cookie-based splits";
       filePatterns := ["**/*.ts"; "**/*.tsx"; "**/*.js"; "**/*.jsx"];
       codePatterns := [
         re "Math\s*\.\s*random\s*\(\s*\)\s*[<>]=?\s*0?\.\s*5" "";
         re "variant\s*=\s*['~`][AB]['~`]" "i";
         re "experiment\s*[=:]\s*.*random" "i"
       ];
       confidenceBase := 0.7 |};
    (* analytics-tracking *)
    {| id := "analytics-manual-tracking";
       domain := "analytics-tracking";
       description := "Hand-rolled analytics/tracking calls instead of a product analytics SDK";
       filePatterns := ["**/*.ts"; "**/*.tsx"; "**/*.js"; "**/*.jsx"];
       codePatterns := [
         re "window\s*\.\s*dataLayer\s*\.\s*push\s*\(" "";
         re "gtag\s*\(\s*['~`]event['~`]" "";
         re "fbq\s*\(\s*['~`]track['~`]" "";
         re "navigator\s*\.\s*sendBeacon\s*\(" ""
       ];
       confidenceBase := 0.7 |};
    (* D. App / Frontend Architecture *)
    (* agent-architecture *)
    {| id := "agent-manual-tool-dispatch";
       domain := "agent-architecture";
       description := "Hand-rolled tool dispatch with switch/case or if/else chains";
       filePatterns := ["**/*.ts"; "**/*.js"; "**/*.py"];
       codePatterns := [
         re "switch\s*\(\s*tool(?:Name|_name|Id)\s*\)" "i";
         re "if\s*\(\s*tool(?:Name|_name)\s*===?\s*['~`]" "i";
         re "tool_map\s*\[" "i"
       ];
       confidenceBase := 0.7 |};
    {| id := "agent-manual-context-window";
       domain := "agent-architecture";
       description := "Hand-rolled context window management (token counting, truncation)";
       filePatterns := ["**/*.ts"; "**/*.js"; "**/*.py"];
       codePatterns := [
         re "token[_s]?\s*(?:count|length|limit)" "i";
         re "truncat(?:e|ion)\s*.*(?:context|message|prompt)" "i";
         re "maxTokens?\s*[=:]" "i"
       ];
       confidenceBase := 0.6 |};
    (* state-management *)
    {| id := "state-manual-usestate-chain";
       domain := "state-management";
       description := "Multiple related useState hooks that should be a single store";
       filePatterns := ["**/*.tsx"; "**/*.jsx"];
       codePatterns := [
         re "useState\s*\(.*\);\s*\n\s*const\s*\[.*\]\s*=\s*useState\s*\(.*\);\s*\n\s*const\s*\[.*\]\s*=\s*useState" "";
         re "const\s*\[\w+,\s*set\w+\]\s*=\s*useState[\s\S]{0,100}const\s*\[\w+,\s*set\w+\]\s*=\s*useState[\s\S]{0,100}const\s*\[\w+,\s*set\w+\]\s*=\s*useState" ""
       ];
       confidenceBase := 0.6 |};
    {| id := "state-manual-context-provider";
       domain := "state-management";
       description := "Hand-rolled React Context for global state management";
       filePatterns := ["**/*.tsx"; "**/*.jsx"; "**/*.ts"; "**/*.js"];
       codePatterns := [
         re "createContext\s*<[\s\S]*>\s*\(" "";
         re "useReducer\s*\(\s*\w+Reducer" "";
         re "Provider\s+value\s*=\s*\{[\s\S]*dispatch" ""
       ];
       confidenceBase := 0.55 |};
    {| id := "state-manual-redux-boilerplate";
       domain := "state-management";
       description := "Redux boilerplate without Redux Toolkit (manual action creators, reducers)";
       filePatterns := ["**/*.ts"; "**/*.js"];
       codePatterns := [
         re "type\s*:\s*['~`][A-Z_]+['~`]\s*,\s*payload" "";
         re "switch\s*\(\s*action\s*\.\s*type\s*\)" "";
         re "const\s+\w+\s*=\s*\(\s*state\s*=\s*initialState\s*,\s*action\s*\)" ""
       ];
       confidenceBase := 0.75 |};
    (* data-fetching-caching *)
    {| id := "data-fetch-useeffect";
       domain := "data-fetching-caching";
       description := "Manual data fetching with fetch/axios inside useEffect";
       filePatterns := ["**/*.tsx"; "**/*.jsx"];
       codePatterns := [
         re "useEffect\s*\(\s*\(\s*\)\s*=>\s*\{[\s\S]{0,200}fetch\s*\(" "";
         re "useEffect\s*\(\s*\(\s*\)\s*=>\s*\{[\s\S]{0,200}axios\s*\.\s*get" "";
         re "useEffect\s*\(\s*\(\s*\)\s*=>\s*\{[\s\S]{0,100}setLoading\s*\(\s*true\s*\)" ""
       ];
       confidenceBase := 0.7 |};
    {| id := "data-fetch-manual-cache";
       domain := "data-fetching-caching";
       description := "Hand-rolled client-side data cache with Map or object";
       filePatterns := ["**/*.ts"; "**/*.tsx"; "**/*.js"; "**/*.jsx"];
       codePatterns := [
         re "new\s+Map\s*<.*,.*>\s*\(\s*\)[\s\S]{0,200}\.set\s*\([\s\S]{0,100}\.get\s*\(" "";
         re "cache\s*\[\s*\w+\s*\]\s*=[\s\S]{0,100}cache\s*\[\s*\w+\s*\]" "";
         re "const\s+cache\s*=\s*(?:new\s+Map|{})" ""
       ];
       confidenceBase := 0.6 |};
    {| id := "data-fetch-manual-retry";
       domain := "data-fetching-caching";
       description := "Hand-rolled fetch retry logic with loops or recursion";
       filePatterns := ["**/*.ts"; "**/*.js"];
       codePatterns := [
         re "retry\s*[<>=]\s*\d+[\s\S]{0,200}fetch\s*\(" "i";
         re "for\s*\(\s*let\s+\w+\s*=\s*0[\s\S]{0,200}fetch\s*\(" "";
         re "attempts?\s*[+\-]=\s*1[\s\S]{0,100}(?:fetch|axios)" "i"
       ];
       confidenceBase := 0.7 |};
    (* error-handling-resilience *)
    {| id := "error-manual-error-boundary";
       domain := "error-handling-resilience";
       description := "Hand-rolled error boundary class component";
       filePatterns := ["**/*.tsx"; "**/*.jsx"; "**/*.ts"; "**/*.js"];
       codePatterns := [
         re "componentDidCatch\s*\(" "";
         re "getDerivedStateFromError\s*\(" "";
         re "class\s+\w*ErrorBoundary\s+extends\s+(?:React\.)?Component" ""
       ];
       confidenceBase := 0.8 |};
    {| id := "error-manual-result-type";
       domain := "error-handling-resilience";
       description := "Hand-rolled Result/Either type for error handling";
       filePatterns := ["**/*.ts"; "**/*.js"];
       codePatterns := [
         re "type\s+Result\s*<[\s\S]*>\s*=\s*\{?\s*(?:success|ok|data|error)" "i";
         re "interface\s+(?:Result|Either)\s*<[\s\S]*>\s*\{" "i";
         re "\{\s*ok\s*:\s*true[\s\S]{0,50}data\s*:[\s\S]{0,100}\{\s*ok\s*:\s*false[\s\S]{0,50}error\s*:" ""
       ];
       confidenceBase := 0.65 |};
    (* realtime-collaboration *)
    {| id := "realtime-manual-websocket";
       domain := "realtime-collaboration";
       description := "Hand-rolled WebSocket connection management";
       filePatterns := ["**/*.ts"; "**/*.tsx"; "**/*.js"; "**/*.jsx"];
       codePatterns := [
         re "new\s+WebSocket\s*\(" "";
         re "\.onmessage\s*=\s*" "";
         re "\.send\s*\(\s*JSON\s*\.\s*stringify" ""
       ];
       confidenceBase := 0.65 |};
    (* file-upload-media *)
    {| id := "upload-manual-filereader";
       domain := "file-upload-media";
       description := "Hand-rolled file reading with FileReader API";
       filePatterns := ["**/*.ts"; "**/*.tsx"; "**/*.js"; "**/*.jsx"];
       codePatterns := [
         re "new\s+FileReader\s*\(\s*\)" "";
         re "readAsDataURL\s*\(" "";
         re "readAsArrayBuffer\s*\(" ""
       ];
       confidenceBase := 0.6 |};
    {| id := "upload-manual-drag-drop";
       domain := "file-upload-media";
       description := "Hand-rolled drag-and-drop file upload handling";
       filePatterns := ["**/*.tsx"; "**/*.jsx"; "**/*.ts"; "**/*.js"];
       codePatterns := [
         re "addEventListener\s*\(\s*['~`](?:dragover|dragenter|drop)['~`]" "";
         re "onDrop\s*=\s*\{[\s\S]{0,200}dataTransfer\s*\.\s*files" "";
         re "e\s*\.\s*dataTransfer\s*\.\s*files" ""
       ];
       confidenceBase := 0.65 |};
    (* E. Backend / Platform *)
    (* database-orm-migrations *)
    {| id := "db-manual-raw-sql";
       domain := "database-orm-migrations";
       description := "Hand-rolled raw SQL queries with string interpolation";
       filePatterns := ["**/*.ts"; "**/*.js"];
       codePatterns := [
         re "`SELECT\s[\s\S]*FROM\s[\s\S]*\$\{" "i";
         re "`INSERT\s+INTO\s[\s\S]*\$\{" "i";
         re "`UPDATE\s[\s\S]*SET\s[\s\S]*\$\{" "i";
         re "query\s*\(\s*['~`](?:SELECT|INSERT|UPDATE|DELETE)\b" "i"
       ];
       confidenceBase := 0.7 |};
    {| id := "db-manual-migration-script";
       domain := "database-orm-migrations";
       description := "Hand-rolled database migration with CREATE TABLE / ALTER TABLE";
       filePatterns := ["**/*.ts"; "**/*.js"; "**/*.sql"];
       codePatterns := [
         re "CREATE\s+TABLE\s+(?:IF\s+NOT\s+EXISTS\s+)?\w+" "i";
         re "ALTER\s+TABLE\s+\w+\s+(?:ADD|DROP|MODIFY)" "i";
         re "\.exec\s*\(\s*['~`](?:CREATE|ALTER|DROP)\s" "i"
       ];
       confidenceBase := 0.65 |};
    (* caching-rate-limit *)
    {| id := "ratelimit-manual-counter";
       domain := "caching-rate-limit";
       description := "Hand-rolled rate limiting with in-memory counters or timestamps";
       filePatterns := ["**/*.ts"; "**/*.js"];
       codePatterns := [
         re "requestCount\s*[+]=\s*1" "i";
         re "rateLimi(?:t|ter)" "i";
         re "new\s+Map\s*\(\s*\).*(?:timestamp|count|window)" "i"
       ];
       confidenceBase := 0.65 |};
    (* feature-flags-config (was: growth-hacking) *)
    {| id := "feature-flags-manual-env";
       domain := "feature-flags-config";
       description := "Hand-rolled feature flag checks via environment variables or config objects";
       filePatterns := ["**/*.ts"; "**/*.tsx"; "**/*.js"; "**/*.jsx"];
       codePatterns := [
         re "process\s*\.\s*env\s*\.\s*FEATURE_" "";
         re "featureFlags?\s*\[" "";
         re "isFeatureEnabled\s*\(" ""
       ];
       confidenceBase := 0.6 |};
    (* F. Security / Compliance *)
    (* auth-security *)
    {| id := "auth-manual-jwt-handling";
       domain := "auth-security";
       description := "Hand-rolled JWT token creation/verification";
       filePatterns := ["**/*.ts"; "**/*.js"; "**/*.py"];
       codePatterns := [
         re "atob\s*\(\s*.*split\s*\(\s*['~`]\.['~`]\s*\)" "";
         re "Buffer\s*\.\s*from\s*\(.*['~`]base64['~`]\s*\)" "";
         re "jwt\s*\.\s*sign\s*\(" "i";
         re "createHmac\s*\(" ""
       ];
       confidenceBase := 0.75 |};
    (* security-hardening *)
    {| id := "security-manual-headers";
       domain := "security-hardening";
       description := "Hand-rolled security headers instead of helmet/middleware";
       filePatterns := ["**/*.ts"; "**/*.js"];
       codePatterns := [
         re "setHeader\s*\(\s*['~`]X-Frame-Options['~`]" "i";
         re "setHeader\s*\(\s*['~`]X-Content-Type-Options['~`]" "i";
         re "setHeader\s*\(\s*['~`]Content-Security-Policy['~`]" "i"
       ];
       confidenceBase := 0.7 |};
    (* G. Observability / Ops *)
    (* observability (parent - generic console.log) *)
    {| id := "observability-manual-logging";
       domain := "observability";
       description := "Hand-rolled logging with console.log/console.error in production code";
       filePatterns := ["**/*.ts"; "**/*.js"; "**/*.tsx"; "**/*.jsx"];
       codePatterns := [
         re "console\s*\.\s*(?:log|error|warn|info)\s*\(" ""
       ];
       confidenceBase := 0.55 |};
    (* error-monitoring (was: observability) *)
    {| id := "error-monitoring-manual-tracking";
       domain := "error-monitoring";
       description := "Hand-rolled error tracking with try/catch and HTTP reporting";
       filePatterns := ["**/*.ts"; "**/*.js"; "**/*.tsx"; "**/*.jsx"];
       codePatterns := [
         re "catch\s*\(\s*\w+\s*\)\s*\{[^}]*fetch\s*\(" "";
         re "window\s*\.\s*onerror" "";
         re "process\s*\.\s*on\s*\(\s*['~`]uncaughtException['~`]" ""
       ];
       confidenceBase := 0.7 |};
    (* logging-tracing-metrics *)
    {| id := "metrics-manual-timing";
       domain := "logging-tracing-metrics";
       description := "Hand-rolled performance timing with Date.now() or performance.now()";
       filePatterns := ["**/*.ts"; "**/*.js"; "**/*.tsx"; "**/*.jsx"];
       codePatterns := [
         re "const\s+\w*[Ss]tart\w*\s*=\s*(?:Date|performance)\s*\.\s*now\s*\(\s*\)" "";
         re "(?:Date|performance)\s*\.\s*now\s*\(\s*\)\s*-\s*\w*[Ss]tart" "";
         re "console\s*\.\s*time\s*\(" ""
       ];
       confidenceBase := 0.55 |};
    {| id := "metrics-manual-structured-log";
       domain := "logging-tracing-metrics";
       description := "Hand-rolled structured logging with JSON.stringify";
       filePatterns := ["**/*.ts"; "**/*.js"];
       codePatterns := [
         re "console\s*\.\s*(?:log|info)\s*\(\s*JSON\s*\.\s*stringify\s*\(" "";
         re "console\s*\.\s*(?:log|info)\s*\(\s*\{[\s\S]{0,200}(?:timestamp|level|message)" "i"
       ];
       confidenceBase := 0.7 |};
    (* H. Delivery / Quality / DevEx *)
    (* testing-strategy *)
    {| id := "test-manual-assertions";
       domain := "testing-strategy";
       description := "Hand-rolled test assertions without a test framework";
       filePatterns := ["**/*.test.ts"; "**/*.test.js"; "**/*.spec.ts"; "**/*.spec.js"];
       codePatterns := [
         re "if\s*\([\s\S]{0,50}!==[\s\S]{0,50}\)\s*throw\s+new\s+Error" "";
         re "assert\s*\.\s*(?:equal|strictEqual|deepEqual)\s*\(" "";
         re "console\s*\.\s*assert\s*\(" ""
       ];
       confidenceBase := 0.7 |};
    {| id := "test-manual-mocks";
       domain := "testing-strategy";
       description := "Hand-rolled mock/stub implementations";
       filePatterns := ["**/*.test.ts"; "**/*.test.js"; "**/*.spec.ts"; "**/*.spec.js"];
       codePatterns := [
         re "const\s+mock\w+\s*=\s*\(\s*\)\s*=>\s*(?:Promise\s*\.\s*resolve|{)" "i";
         re "jest\s*\.\s*fn\s*\(\s*\)" "";
         re "sinon\s*\.\s*stub\s*\(" ""
       ];
       confidenceBase := 0.5 |};
    (* I. Performance *)
    (* performance-web-vitals *)
    {| id := "perf-unoptimized-images";
       domain := "performance-web-vitals";
       description := "Using raw <img> tags instead of optimized image components";
       filePatterns := ["**/*.tsx"; "**/*.jsx"];
       codePatterns := [
         re "<img\s[^>]*src\s*=\s*\{" "";
         re "<img\s[^>]*src\s*=\s*['~`](?:https?:|\/)" ""
       ];
       confidenceBase := 0.5 |};
    (* J. AI Engineering *)
    (* ai-model-serving *)
    {| id := "ai-manual-prompt-template";
       domain := "ai-model-serving";
       description := "Hand-rolled prompt template string interpolation";
       filePatterns := ["**/*.ts"; "**/*.tsx"; "**/*.js"; "**/*.jsx"; "**/*.py"];
       codePatterns := [
         re "`[^`]*\$\{.*\}[^`]*`\s*.*(?:prompt|system|user|assistant)" "i";
         re "f['~].*\{.*\}.*['~].*(?:prompt|model|completion)" "i";
         re "\.replace\s*\(\s*['~`]\{.*\}['~`]" ""
       ];
       confidenceBase := 0.65 |};
    {| id := "ai-manual-inference-http";
       domain := "ai-model-serving";
       description := "Hand-rolled HTTP calls to model inference endpoints";
       filePatterns := ["**/*.ts"; "**/*.js"; "**/*.py"];
       codePatterns := [
         re "fetch\s*\(\s*['~`].*(?:openai|anthropic|huggingface|inference)" "i";
         re "axios\s*\.\s*post\s*\(\s*['~`].*(?:completions|chat|generate)" "i";
         re "requests\s*\.\s*post\s*\(\s*['~`].*(?:v1\/|api\/)" "i"
       ];
       confidenceBase := 0.7 |};
    (* K. Business domains *)
    (* payments-billing (was: cross-border-ecommerce) *)
    {| id := "payments-manual-integration";
       domain := "payments-billing";
       description := "Hand-rolled payment gateway HTTP integration";
       filePatterns := ["**/*.ts"; "**/*.js"; "**/*.py"];
       codePatterns := [
         re "fetch\s*\(\s*['~`].*(?:stripe|paypal|checkout).*['~`]" "i";
         re "payment[_-]?intent" "i";
         re "charge\s*\.\s*create" "i"
       ];
       confidenceBase := 0.75 |};
    (* cross-border-ecommerce *)
    {| id := "ecommerce-manual-tax-calculation";
       domain := "cross-border-ecommerce";
       description := "Hand-rolled tax/VAT calculation logic";
       filePatterns := ["**/*.ts"; "**/*.js"; "**/*.py"];
       codePatterns := [
         re "tax[_-]?rate\s*[=:]\s*0?\.\d+" "i";
         re "vat\s*[=:*]" "i";
         re "calculateTax\s*\(" "i"
       ];
       confidenceBase := 0.65 |}
  ].

Local Close Scope Q_scope.

(** Patterns filtered to one domain:
    [getPatternCatalog().filter((p) => p.domain === domain)]. *)
Definition getPatternsForDomain (d : string) : list PatternDefinition :=
  List.filter (fun p => String.eqb (domain p) d) (getPatternCatalog tt).

End PatternCatalog.

(* ===================================================================== *)
(** * Any-character spans of an expression                               *)
(* ===================================================================== *)

Module Spans.

Import Regex.

(** Every code unit of the model. *)
Definition allChars : list ascii := map ascii_of_nat (seq 0 256).

Fixpoint stripGroups (n : Node) : Node :=
  match n with
  | NGroup _ a => stripGroups a
  | _ => n
  end.

(** The two ways an expression spells "any character": the dot, and a class
    that accepts every code unit (such as the class of [\s] and [\S]). *)
Inductive SpanKind : Type := DotSpan | AnyClassSpan.

Definition spanKind (fl : Flags) (body : Node) : option SpanKind :=
  match stripGroups body with
  | NDot => Some DotSpan
  | NClass inv items =>
      if forallb (classMatches fl inv items) allChars then Some AnyClassSpan else None
  | _ => None
  end.

(** A quantified any-character atom: its kind and the quantifier's bounds. *)
Record Span : Type := mkSpan {
  kind : SpanKind;
  spanMin : nat;
  spanMax : option nat
}.

Fixpoint spans (fl : Flags) (n : Node) : list Span :=
  match n with
  | NSeq a b => spans fl a ++ spans fl b
  | NAlt a b => spans fl a ++ spans fl b
  | NGroup _ a => spans fl a
  | NRepeat mn mx _ a =>
      match spanKind fl a with
      | Some k => mkSpan k mn mx :: spans fl a
      | None => spans fl a
      end
  | _ => []
  end.

Definition spansOf (r : RegExp) : option (list Span) :=
  match parse (source r) with
  | Some n => Some (spans (readFlags (flags r)) n)
  | None => None
  end.

Definition hasUpperBound (sp : Span) : bool :=
  match spanMax sp with
  | Some _ => true
  | None => false
  end.

(** Bounded repetition as the specification words it: every any-character
    span of the expression carries an explicit upper bound. *)
Definition boundedRepetition (r : RegExp) : bool :=
  match spansOf r with
  | Some sps => forallb hasUpperBound sps
  | None => false
  end.

(** What the catalog's expressions do satisfy: a dot span stays within one
    line (the expression does not set the dotAll flag), and an any-character
    class span carries an explicit upper bound of at most [limit] - unless
    the expression is one of those set apart ([excepted]). *)
Definition spanConfined (fl : Flags) (limit : nat) (excepted : bool) (sp : Span) : bool :=
  match kind sp, spanMax sp with
  | DotSpan, _ => negb (dotAll fl)
  | AnyClassSpan, Some hi => if hi <=? limit then true else excepted
  | AnyClassSpan, None => excepted
  end.

Definition confinedSpans (limit : nat) (excepted : RegExp -> bool) (r : RegExp) : bool :=
  match spansOf r with
  | Some sps => forallb (spanConfined (readFlags (flags r)) limit (excepted r)) sps
  | None => false
  end.

End Spans.

(* ===================================================================== *)
(** * Facts about the catalog                                            *)
(* ===================================================================== *)

Module CatalogFacts.

Import Regex PatternCatalog Spans.

(** All expressions of the catalog, in order. *)
Definition allCodePatterns : list RegExp :=
  flat_map codePatterns (getPatternCatalog tt).

(** Without the dotAll flag the dot refuses the line terminators. *)
Lemma dot_refuses_line_terminators (fl : Flags) (x : ascii) :
  dotAll fl = false -> dotMatches fl x = true -> isLineTerminator x = false.
Proof.
  unfold dotMatches. intros ->. simpl.
  destruct (isLineTerminator x); [discriminate | reflexivity].
Qed.

Lemma forallb_Forall {A : Type} (f : A -> bool) (l : list A) :
  forallb f l = true -> Forall (fun x => f x = true) l.
Proof.
  induction l as [| x l IH]; simpl; intros H; constructor.
  - destruct (f x); [reflexivity | discriminate].
  - apply IH. destruct (f x); [assumption | discriminate].
Qed.

Definition inUnitInterval (q : Q) : bool :=
  Qle_bool 0 q && Qle_bool q 1.

Lemma inUnitInterval_spec (q : Q) :
  inUnitInterval q = true -> (0 <= q)%Q /\ (q <= 1)%Q.
Proof.
  unfold inUnitInterval. intros H.
  apply andb_true_iff in H as [H0 H1].
  split; apply Qle_bool_iff; assumption.
Qed.

(** Boolean check of pairwise distinctness of strings. *)
Fixpoint distinct (l : list string) : bool :=
  match l with
  | [] => true
  | x :: l' => negb (existsb (String.eqb x) l') && distinct l'
  end.

Lemma distinct_NoDup (l : list string) : distinct l = true -> List.NoDup l.
Proof.
  induction l as [| x l IH]; simpl; intros H.
  - constructor.
  - apply andb_true_iff in H as [Hx Hl].
    constructor; [| apply IH; exact Hl].
    intros Hin.
    assert (existsb (String.eqb x) l = true) as E.
    { apply existsb_exists. exists x. split; [exact Hin | apply String.eqb_refl]. }
    rewrite E in Hx. discriminate.
Qed.

(** [C3] In the list returned by [getPatternCatalog] the [id] values are
    pairwise distinct, and every entry's [confidenceBase] lies in the closed
    interval from 0 to 1. *)
Theorem catalog_ids_distinct_confidence_in_range :
  List.NoDup (map id (getPatternCatalog tt)) /\
  Forall (fun p => (0 <= confidenceBase p)%Q /\ (confidenceBase p <= 1)%Q)
         (getPatternCatalog tt).
Proof.
  split.
  - apply distinct_NoDup. vm_compute. reflexivity.
  - eapply List.Forall_impl;
      [| apply (forallb_Forall (fun p => inUnitInterval (confidenceBase p)));
         vm_compute; reflexivity].
    intros p Hp. apply inUnitInterval_spec. exact Hp.
Qed.

(** ** Any-character spans *)

(** The first expression of the catalog (pattern [ux-manual-loading-states]). *)
Definition loadingStateExpression : RegExp :=
  re "isLoading\s*\?\s*.*(?:Loading|Spinner|\.\.\.)" "i".

(** An expression of pattern [state-manual-context-provider]. *)
Definition createContextExpression : RegExp :=
  re "createContext\s*<[\s\S]*>\s*\(" "".

(** A conditional followed by [n] filler characters on the same line. *)
Definition longLoadingLine (n : nat) : string :=
  "isLoading ? " +:+ string_of_list_ascii (repeat "x"%char n) +:+ "Spinner".

(** A type argument that runs over [n] lines. *)
Definition longCreateContext (n : nat) : string :=
  "createContext<" +:+ string_of_list_ascii (repeat (ascii_of_nat 10) n) +:+ ">(".

Lemma In_decide {A : Type} (eqb : A -> A -> bool)
      (eqb_eq : forall a b, eqb a b = true -> a = b) (x : A) (l : list A) :
  existsb (eqb x) l = true -> In x l.
Proof.
  intros H. apply existsb_exists in H as [y [Hy E]].
  apply eqb_eq in E. subst. exact Hy.
Qed.

Definition regexp_eqb (a b : RegExp) : bool :=
  String.eqb (source a) (source b) && String.eqb (flags a) (flags b).

Lemma regexp_eqb_eq (a b : RegExp) : regexp_eqb a b = true -> a = b.
Proof.
  destruct a as [sa fa], b as [sb fb]. unfold regexp_eqb. simpl.
  intros H. apply andb_true_iff in H as [H1 H2].
  apply String.eqb_eq in H1, H2. subst. reflexivity.
Qed.

(** ** What a quantified one-character atom consumes *)

Section Window.

Import Regex.

Variable fl : Flags.

(** The character test of a one-character atom. *)
Fixpoint single (a : Node) : option (ascii -> bool) :=
  match a with
  | NChar c => Some (charEq fl c)
  | NDot => Some (dotMatches fl)
  | NClass inv items => Some (classMatches fl inv items)
  | NGroup _ b => single b
  | _ => None
  end.

Lemma single_match (a : Node) (ok : ascii -> bool) :
  single a = Some ok ->
  forall k p s, matchNode fl a k p s = oneChar ok k s.
Proof.
  induction a; simpl; intros H k p s; try discriminate;
    try (inversion H; subst; reflexivity).
  apply IHa. exact H.
Qed.

(** Where [n] characters that all pass [ok] lead from a position. *)
Inductive Consumes (ok : ascii -> bool)
  : nat -> option ascii -> list ascii -> option ascii -> list ascii -> Prop :=
| ConsumesNone (p : option ascii) (s : list ascii) : Consumes ok 0 p s p s
| ConsumesOne (n : nat) (p : option ascii) (x : ascii) (s : list ascii)
              (p' : option ascii) (s' : list ascii) :
    ok x = true ->
    Consumes ok n (Some x) s p' s' ->
    Consumes ok (S n) p (x :: s) p' s'.

Lemma optional_window (a : Node) (ok : ascii -> bool) (k : Cont) :
  single a = Some ok ->
  forall n p s,
    (fix optional (n : nat) (p : option ascii) (s : list ascii) : bool :=
       if k p s then true else
       match n with
       | O => false
       | S n' =>
           matchNode fl a
             (fun p' s' =>
                if length s' <? length s then optional n' p' s' else false) p s
       end) n p s = true ->
    exists m p' s', m <= n /\ Consumes ok m p s p' s' /\ k p' s' = true.
Proof.
  intros Hs. induction n as [| n IH]; intros p s H.
  - destruct (k p s) eqn:E; [| discriminate].
    exists 0, p, s. repeat split; [lia | constructor | exact E].
  - destruct (k p s) eqn:E.
    + exists 0, p, s. repeat split; [lia | constructor | exact E].
    + rewrite (single_match a ok Hs) in H. unfold oneChar in H.
      destruct s as [| x s]; [discriminate |].
      destruct (ok x) eqn:Eok; [| discriminate].
      destruct (length s <? length (x :: s)); [| discriminate].
      destruct (IH (Some x) s H) as (m & p' & s' & Hm & Hc & Hk).
      exists (S m), p', s'. repeat split; [lia | | exact Hk].
      constructor; assumption.
Qed.

(** A match of a quantified one-character atom consumes a number of
    characters between the bounds of the quantifier, all of them accepted by
    the atom, before the rest of the expression goes on. *)
Lemma repeat_window (a : Node) (ok : ascii -> bool) (mn : nat) (mx : option nat)
      (g : bool) (k : Cont) :
  single a = Some ok ->
  forall p s,
    matchNode fl (NRepeat mn mx g a) k p s = true ->
    exists n p' s',
      mn <= n /\ (forall hi, mx = Some hi -> n <= Nat.max mn hi) /\
      Consumes ok n p s p' s' /\ k p' s' = true.
Proof.
  intros Hs. cbn [matchNode].
  set (optional :=
         fix optional (n : nat) (p : option ascii) (s : list ascii) : bool :=
           if k p s then true else
           match n with
           | O => false
           | S n' =>
               matchNode fl a
                 (fun p' s' =>
                    if length s' <? length s then optional n' p' s' else false) p s
           end).
  assert (forall m p s,
             (fix mandatory (m : nat) (p : option ascii) (s : list ascii) : bool :=
                match m with
                | O => optional (match mx with
                                 | Some hi => hi - mn
                                 | None => length s
                                 end) p s
                | S m' => matchNode fl a (mandatory m') p s
                end) m p s = true ->
             exists n p' s',
               m <= n /\ (forall hi, mx = Some hi -> n <= m + (hi - mn)) /\
               Consumes ok n p s p' s' /\ k p' s' = true) as Hmand.
  { induction m as [| m IH]; intros p s H.
    - apply (optional_window a ok k Hs) in H as (n & p' & s' & Hn & Hc & Hk).
      exists n, p', s'. repeat split; [lia | | exact Hc | exact Hk].
      intros hi ->. simpl. exact Hn.
    - rewrite (single_match a ok Hs) in H. unfold oneChar in H.
      destruct s as [| x s]; [discriminate |].
      destruct (ok x) eqn:Eok; [| discriminate].
      destruct (IH (Some x) s H) as (n & p' & s' & Hn & Hhi & Hc & Hk).
      exists (S n), p', s'. repeat split; [lia | | | exact Hk].
      + intros hi E. specialize (Hhi hi E). lia.
      + constructor; assumption. }
  intros p s H. destruct (Hmand mn p s H) as (n & p' & s' & Hn & Hhi & Hc & Hk).
  exists n, p', s'. repeat split; [exact Hn | | exact Hc | exact Hk].
  intros hi E. specialize (Hhi hi E). lia.
Qed.

End Window.

(** [C1], as stated, fails: the catalog holds expressions whose
    any-character spans carry no upper bound.  [loadingStateExpression] has the
    single span [.*], and matches a window of 300 characters;
    [createContextExpression] has the span of the all-accepting class with
    the star, and matches across 300 line breaks. *)
Lemma catalog_has_unbounded_spans :
  In loadingStateExpression allCodePatterns /\
  spansOf loadingStateExpression = Some [mkSpan DotSpan 0 None] /\
  boundedRepetition loadingStateExpression = false /\
  test loadingStateExpression (longLoadingLine 300) = true /\
  In createContextExpression allCodePatterns /\
  spansOf createContextExpression = Some [mkSpan AnyClassSpan 0 None] /\
  boundedRepetition createContextExpression = false /\
  test createContextExpression (longCreateContext 300) = true.
Proof.
  repeat split; try (vm_compute; reflexivity);
    apply (In_decide regexp_eqb regexp_eqb_eq); vm_compute; reflexivity.
Qed.

(** The seven expressions, of the patterns [state-manual-context-provider],
    [error-manual-result-type] and [db-manual-raw-sql], that write
    [[\s\S]*] without a bound. *)
Definition unboundedClassExpressions : list RegExp :=
  [ re "createContext\s*<[\s\S]*>\s*\(" "";
    re "Provider\s+value\s*=\s*\{[\s\S]*dispatch" "";
    re "type\s+Result\s*<[\s\S]*>\s*=\s*\{?\s*(?:success|ok|data|error)" "i";
    re "interface\s+(?:Result|Either)\s*<[\s\S]*>\s*\{" "i";
    re "`SELECT\s[\s\S]*FROM\s[\s\S]*\$\{" "i";
    re "`INSERT\s+INTO\s[\s\S]*\$\{" "i";
    re "`UPDATE\s[\s\S]*SET\s[\s\S]*\$\{" "i" ].

Definition isUnboundedClassExpression (r : RegExp) : bool :=
  existsb (regexp_eqb r) unboundedClassExpressions.

(** How an any-character span of the expression [r] is confined. *)
Definition Confined (r : RegExp) (sp : Span) : Prop :=
  match kind sp with
  | DotSpan => dotAll (readFlags (flags r)) = false
  | AnyClassSpan =>
      (exists hi, spanMax sp = Some hi /\ hi <= 200) \/
      In r unboundedClassExpressions
  end.

Lemma confinedSpans_spec (r : RegExp) :
  confinedSpans 200 isUnboundedClassExpression r = true ->
  exists sps, spansOf r = Some sps /\ Forall (Confined r) sps.
Proof.
  unfold confinedSpans. destruct (spansOf r) as [sps |]; [| discriminate].
  intros H. exists sps. split; [reflexivity |].
  apply forallb_Forall in H.
  eapply List.Forall_impl; [| exact H].
  intros sp Hsp. unfold spanConfined in Hsp. unfold Confined.
  assert (isUnboundedClassExpression r = true -> In r unboundedClassExpressions) as Hex.
  { intros E. apply (In_decide regexp_eqb regexp_eqb_eq). exact E. }
  destruct (kind sp).
  - destruct (dotAll (readFlags (flags r))); [discriminate | reflexivity].
  - destruct (spanMax sp) as [hi |]; [| right; apply Hex; exact Hsp].
    destruct (hi <=? 200) eqn:E; [| right; apply Hex; exact Hsp].
    left. exists hi. split; [reflexivity | apply Nat.leb_le; exact E].
Qed.

(** [C1], amended.  Every expression of the catalog is in the supported
    syntax, and each of its any-character spans is confined as follows: a dot
    span belongs to an expression without the dotAll flag, so that it cannot
    run past a line terminator; an any-character class span carries an
    explicit upper bound of at most 200, except in the seven expressions of
    [unboundedClassExpressions], all of them in the catalog, of whose class
    spans nothing is said. *)
Theorem catalog_spans_confined :
  incl unboundedClassExpressions allCodePatterns /\
  Forall (fun r => exists sps, spansOf r = Some sps /\ Forall (Confined r) sps)
         allCodePatterns.
Proof.
  split.
  - intros r Hr. apply (In_decide regexp_eqb regexp_eqb_eq).
    revert r Hr. apply List.Forall_forall.
    apply (forallb_Forall (fun r => existsb (regexp_eqb r) allCodePatterns)).
    vm_compute. reflexivity.
  - eapply List.Forall_impl; [intros r Hr; apply confinedSpans_spec; exact Hr |].
    apply forallb_Forall. vm_compute. reflexivity.
Qed.

(** ** The expectations of the scanner tests *)

(** The ids of the patterns one of whose expressions matches a text. *)
Definition matchingPatterns (content : string) : list string :=
  map id
    (List.filter (fun p => existsb (fun r => test r content) (codePatterns p))
       (getPatternCatalog tt)).

(** The file contents of the tests "Scanner - code pattern matching", with
    the pattern each test expects; the text without hand-rolled code matches
    nothing. *)
Example scanner_test_expectations :
  matchingPatterns "
      function formatCount(count: number) {
        return count === 1 ? 'item' : 'items';
      }
    " = ["i18n-manual-pluralization"] /\
  matchingPatterns "
      const meta = document.createElement('meta');
      meta.name = 'description';
      document.head.appendChild(meta);
    " = ["seo-manual-meta-tags"] /\
  matchingPatterns "
      const variant = Math.random() < 0.5 ? 'control' : 'treatment';
    " = ["ab-test-manual-random-split"] /\
  matchingPatterns "
      const payload = Buffer.from(token.split('.')[1], 'base64').toString();
    " = ["auth-manual-jwt-handling"] /\
  matchingPatterns "
      function processOrder(order: Order) {
        console.log('Processing order', order.id);
      }
    " = ["observability-manual-logging"] /\
  matchingPatterns (unquote "
      export function Card() {
        return <div className=~bg-[#1a1a2e] text-[#e0e0e0]~>card</div>;
      }
    ") = ["design-hardcoded-colors"] /\
  matchingPatterns "
      export function Box() {
        return <div style={{ padding: '16px', color: 'red' }}>box</div>;
      }
    " = ["design-inline-styles"] /\
  matchingPatterns "
      export function Button({ active }: { active: boolean }) {
        return <button className={active ? 'bg-blue-500' : 'bg-gray-500'}>click</button>;
      }
    " = ["design-no-cn-utility"] /\
  matchingPatterns "
      export function add(a: number, b: number): number {
        return a + b;
      }
    " = [].
Proof. vm_compute. repeat split. Qed.

(** ** Deep relative imports *)

(** The file of the scanner test "detects deep relative imports (3+
    levels)", [src/features/auth/hooks/useAuth.ts]. *)
Definition useAuthSource : string :=
"
      import { config } from '../../../config/app';
      import { db } from '../../../lib/database';
    ".

Definition deepImportLine : string :=
  "import { config } from '../../../config/app'".

(** [C2] on the code.  The catalog has no pattern of domain
    [code-organization] and none named [org-deep-relative-import]; every
    expression of the catalog is in the supported syntax, and none matches a
    file that imports from three directory levels up - neither the single
    import line nor the file of the test. *)
Theorem deep_relative_import_undetected :
  getPatternsForDomain "code-organization" = [] /\
  Forall (fun p => id p <> "org-deep-relative-import") (getPatternCatalog tt) /\
  Forall (fun r => exists n, parse (source r) = Some n) allCodePatterns /\
  Forall (fun r => test r deepImportLine = false) allCodePatterns /\
  Forall (fun r => test r useAuthSource = false) allCodePatterns.
Proof.
  split; [vm_compute; reflexivity |].
  split; [| split; [| split]].
  - eapply List.Forall_impl;
      [| apply (forallb_Forall
                  (fun p => negb (String.eqb (id p) "org-deep-relative-import")));
         vm_compute; reflexivity].
    intros p Hp E. simpl in Hp. rewrite E in Hp. vm_compute in Hp. discriminate.
  - eapply List.Forall_impl;
      [| apply (forallb_Forall
                  (fun r => match parse (source r) with
                            | Some _ => true
                            | None => false
                            end));
         vm_compute; reflexivity].
    intros r Hr. simpl in Hr.
    destruct (parse (source r)) as [n |]; [exists n; reflexivity | discriminate].
  - eapply List.Forall_impl;
      [| apply (forallb_Forall (fun r => negb (test r deepImportLine)));
         vm_compute; reflexivity].
    intros r Hr. simpl in Hr. apply negb_true_iff. exact Hr.
  - eapply List.Forall_impl;
      [| apply (forallb_Forall (fun r => negb (test r useAuthSource)));
         vm_compute; reflexivity].
    intros r Hr. simpl in Hr. apply negb_true_iff. exact Hr.
Qed.

(** ** Purity and the domain filter *)

(** The specification's wording of the domain accessor: the subsequence of
    the catalog whose entries have the given domain. *)
Fixpoint domainSubsequence (d : string) (l : list PatternDefinition)
  : list PatternDefinition :=
  match l with
  | [] => []
  | p :: l' =>
      if string_dec (domain p) d
      then p :: domainSubsequence d l'
      else domainSubsequence d l'
  end.

Lemma filter_domainSubsequence (d : string) (l : list PatternDefinition) :
  List.filter (fun p => String.eqb (domain p) d) l = domainSubsequence d l.
Proof.
  induction l as [| p l IH]; simpl; [reflexivity |].
  destruct (string_dec (domain p) d) as [E | NE].
  - rewrite (proj2 (String.eqb_eq _ _) E). f_equal. exact IH.
  - rewrite (proj2 (String.eqb_neq _ _) NE). exact IH.
Qed.

Lemma domainSubsequence_sublist (d : string) (l : list PatternDefinition) :
  sublist (domainSubsequence d l) l.
Proof.
  induction l as [| p l IH]; simpl.
  - constructor.
  - destruct (string_dec (domain p) d).
    + apply sublist_skip. exact IH.
    + apply sublist_cons. exact IH.
Qed.

Lemma domainSubsequence_In (d : string) (l : list PatternDefinition) (p : PatternDefinition) :
  In p (domainSubsequence d l) <-> In p l /\ domain p = d.
Proof.
  induction l as [| q l IH]; simpl.
  - tauto.
  - destruct (string_dec (domain q) d) as [E | NE]; simpl; rewrite IH.
    + split; [intros [-> | [H1 H2]]; tauto | tauto].
    + split; [tauto | intros [[-> | H1] H2]; [contradiction | tauto]].
Qed.

(** [C4] [getPatternCatalog] is pure and order-stable: two calls return lists
    of equal length with equal entries at every index; and for every domain
    string [d], [getPatternsForDomain d] is the subsequence of the catalog
    whose entries have domain [d] - in catalog order, holding exactly those
    entries - hence the empty list for a domain with no patterns. *)
Theorem catalog_stable_and_domain_filter :
  (forall u1 u2 : unit,
      length (getPatternCatalog u1) = length (getPatternCatalog u2) /\
      forall i : nat,
        nth_error (getPatternCatalog u1) i = nth_error (getPatternCatalog u2) i) /\
  (forall d : string,
      getPatternsForDomain d = domainSubsequence d (getPatternCatalog tt) /\
      sublist (getPatternsForDomain d) (getPatternCatalog tt) /\
      (forall p, In p (getPatternsForDomain d) <->
                 In p (getPatternCatalog tt) /\ domain p = d) /\
      ((forall p, In p (getPatternCatalog tt) -> domain p <> d) ->
       getPatternsForDomain d = [])).
Proof.
  split.
  - intros [] []. split; [reflexivity | intros i; reflexivity].
  - intros d. unfold getPatternsForDomain.
    rewrite filter_domainSubsequence.
    split; [reflexivity |].
    split; [apply domainSubsequence_sublist |].
    split; [intros p; apply domainSubsequence_In |].
    intros Hnone.
    destruct (domainSubsequence d (getPatternCatalog tt)) as [| p l] eqn:E;
      [reflexivity |].
    assert (In p (domainSubsequence d (getPatternCatalog tt))) as Hin
        by (rewrite E; left; reflexivity).
    apply domainSubsequence_In in Hin as [Hin Hd].
    exfalso. exact (Hnone p Hin Hd).
Qed.

End CatalogFacts.

(* ===================================================================== *)
(** * Shape of the catalog entries and of their expressions               *)
(* ===================================================================== *)

Module CatalogShape.

Import Regex PatternCatalog CatalogFacts.

(** ** Entries *)

(** What follows the first five characters of a file pattern. *)
Definition extensionOf (g : string) : string :=
  String.substring 5 (String.length g - 5) g.

Definition plainExtension (ext : string) : bool :=
  negb (String.eqb ext "") &&
  forallb (fun c => negb (Ascii.eqb c "/") && negb (Ascii.eqb c "*"))
          (list_ascii_of_string ext).

(** A file pattern that selects by the end of the file name only: any
    directory, any base name, then a dot and an extension. *)
Definition ExtensionGlob (g : string) : Prop :=
  exists ext,
    g = "**/*." +:+ ext /\ ext <> "" /\
    ~ In "/"%char (list_ascii_of_string ext) /\
    ~ In "*"%char (list_ascii_of_string ext).

Definition isExtensionGlob (g : string) : bool :=
  bool_decide (g = "**/*." +:+ extensionOf g) && plainExtension (extensionOf g).

Lemma isExtensionGlob_spec (g : string) : isExtensionGlob g = true -> ExtensionGlob g.
Proof.
  unfold isExtensionGlob, plainExtension. intros H.
  apply andb_true_iff in H as [Hg H].
  apply andb_true_iff in H as [Hne Hchars].
  apply bool_decide_eq_true in Hg.
  exists (extensionOf g). split; [exact Hg |]. split; [| split].
  - intros E. rewrite E in Hne. discriminate.
  - intros Hin. apply (proj1 (forallb_forall _ _) Hchars) in Hin. discriminate.
  - intros Hin. apply (proj1 (forallb_forall _ _) Hchars) in Hin. discriminate.
Qed.

(** An expression without flags, or with the flag [i] alone, whose source is
    understood. *)
Definition PlainExpression (r : RegExp) : Prop :=
  (flags r = "" \/ flags r = "i") /\ parse (source r) <> None.

Definition isPlainExpression (r : RegExp) : bool :=
  (String.eqb (flags r) "" || String.eqb (flags r) "i") &&
  match parse (source r) with
  | Some _ => true
  | None => false
  end.

Lemma isPlainExpression_spec (r : RegExp) :
  isPlainExpression r = true -> PlainExpression r.
Proof.
  unfold isPlainExpression, PlainExpression. intros H.
  apply andb_true_iff in H as [Hf Hp]. split.
  - apply orb_true_iff in Hf as [Hf | Hf]; apply String.eqb_eq in Hf; auto.
  - destruct (parse (source r)); [discriminate | discriminate Hp].
Qed.

Definition WellFormed (p : PatternDefinition) : Prop :=
  id p <> "" /\
  description p <> "" /\
  filePatterns p <> [] /\
  codePatterns p <> [] /\
  Forall ExtensionGlob (filePatterns p) /\
  Forall PlainExpression (codePatterns p) /\
  (0.5 <= confidenceBase p)%Q /\ (confidenceBase p <= 0.8)%Q.

Definition isWellFormed (p : PatternDefinition) : bool :=
  negb (String.eqb (id p) "") &&
  negb (String.eqb (description p) "") &&
  negb (Nat.eqb (length (filePatterns p)) 0) &&
  negb (Nat.eqb (length (codePatterns p)) 0) &&
  forallb isExtensionGlob (filePatterns p) &&
  forallb isPlainExpression (codePatterns p) &&
  Qle_bool 0.5 (confidenceBase p) && Qle_bool (confidenceBase p) 0.8.

Lemma isWellFormed_spec (p : PatternDefinition) :
  isWellFormed p = true -> WellFormed p.
Proof.
  unfold isWellFormed, WellFormed. intros H.
  rewrite !andb_true_iff in H.
  destruct H as [[[[[[[H1 H2] H3] H4] H5] H6] H7] H8].
  repeat split.
  - intros E. rewrite E in H1. discriminate.
  - intros E. rewrite E in H2. discriminate.
  - intros E. rewrite E in H3. discriminate.
  - intros E. rewrite E in H4. discriminate.
  - eapply List.Forall_impl; [| apply forallb_Forall; exact H5].
    intros g. apply isExtensionGlob_spec.
  - eapply List.Forall_impl; [| apply forallb_Forall; exact H6].
    intros r. apply isPlainExpression_spec.
  - apply Qle_bool_iff. exact H7.
  - apply Qle_bool_iff. exact H8.
Qed.

(** ** Repetitions *)

(** A one-character atom, possibly in a group. *)
Fixpoint oneCharAtom (n : Node) : bool :=
  match n with
  | NChar _ => true
  | NDot => true
  | NClass _ _ => true
  | NGroup _ a => oneCharAtom a
  | _ => false
  end.

(** A quantifier that allows one iteration at most. *)
Definition atMostOnce (mn : nat) (mx : option nat) : bool :=
  match mx with
  | Some hi => (mn <=? 1) && (hi <=? 1)
  | None => false
  end.

(** No quantifier that may iterate more than once is applied to anything
    but a one-character atom. *)
Fixpoint plainRepeats (n : Node) : bool :=
  match n with
  | NSeq a b => plainRepeats a && plainRepeats b
  | NAlt a b => plainRepeats a && plainRepeats b
  | NGroup _ a => plainRepeats a
  | NRepeat mn mx _ a => plainRepeats a && (oneCharAtom a || atMostOnce mn mx)
  | _ => true
  end.

(** ** The least number of characters a match consumes *)

Fixpoint minLen (r : Node) : nat :=
  match r with
  | NEmpty => 0
  | NChar _ => 1
  | NDot => 1
  | NClass _ _ => 1
  | NWordBoundary _ => 0
  | NStart => 0
  | NEnd => 0
  | NSeq a b => minLen a + minLen b
  | NAlt a b => Nat.min (minLen a) (minLen b)
  | NRepeat mn _ _ a => mn * minLen a
  | NGroup _ a => minLen a
  end.

Section MinLength.

Variable fl : Flags.

(** What a match of [r] leaves to the rest of the expression is shorter by
    [minLen r] characters at least. *)
Definition Shortens (r : Node) : Prop :=
  forall (k : Cont) p s,
    matchNode fl r k p s = true ->
    exists p' s', k p' s' = true /\ length s' + minLen r <= length s.

Lemma oneChar_shortens (ok : ascii -> bool) (k : Cont) (s : list ascii) :
  oneChar ok k s = true ->
  exists p' s', k p' s' = true /\ length s' + 1 <= length s.
Proof.
  unfold oneChar. destruct s as [| x s]; [discriminate |].
  destruct (ok x); [| discriminate].
  intros H. exists (Some x), s. split; [exact H | simpl; lia].
Qed.

Lemma optional_shortens (a : Node) (k : Cont) :
  Shortens a ->
  forall n p s,
    (fix optional (n : nat) (p : option ascii) (s : list ascii) : bool :=
       if k p s then true else
       match n with
       | O => false
       | S n' =>
           matchNode fl a
             (fun p' s' =>
                if length s' <? length s then optional n' p' s' else false) p s
       end) n p s = true ->
    exists p' s', k p' s' = true /\ length s' <= length s.
Proof.
  intros Ha. induction n as [| n IH]; intros p s H.
  - destruct (k p s) eqn:E; [| discriminate].
    exists p, s. split; [exact E | lia].
  - destruct (k p s) eqn:E.
    + exists p, s. split; [exact E | lia].
    + apply Ha in H as (p1 & s1 & H1 & L1).
      destruct (length s1 <? length s); [| discriminate].
      apply IH in H1 as (p2 & s2 & H2 & L2).
      exists p2, s2. split; [exact H2 | lia].
Qed.

Lemma mandatory_shortens (a : Node) (mn : nat) (mx : option nat) (k : Cont) :
  Shortens a ->
  forall m p s,
    (fix mandatory (m : nat) (p : option ascii) (s : list ascii) : bool :=
       match m with
       | O =>
           (fix optional (n : nat) (p : option ascii) (s : list ascii) : bool :=
              if k p s then true else
              match n with
              | O => false
              | S n' =>
                  matchNode fl a
                    (fun p' s' =>
                       if length s' <? length s then optional n' p' s' else false) p s
              end)
             (match mx with
              | Some hi => hi - mn
              | None => length s
              end) p s
       | S m' => matchNode fl a (mandatory m') p s
       end) m p s = true ->
    exists p' s', k p' s' = true /\ length s' + m * minLen a <= length s.
Proof.
  intros Ha. induction m as [| m IH]; intros p s H.
  - apply (optional_shortens a k Ha) in H as (p' & s' & Hk & L).
    exists p', s'. split; [exact Hk | simpl; lia].
  - apply Ha in H as (p1 & s1 & H1 & L1).
    apply IH in H1 as (p2 & s2 & H2 & L2).
    exists p2, s2. split; [exact H2 | simpl; lia].
Qed.

Lemma matchNode_shortens (r : Node) : Shortens r.
Proof.
  induction r; intros k p s H; cbn [matchNode minLen] in *.
  - exists p, s. split; [exact H | lia].
  - apply oneChar_shortens in H. exact H.
  - apply oneChar_shortens in H. exact H.
  - apply oneChar_shortens in H. exact H.
  - destruct (xorb neg (xorb (wordAt p) (wordAt (head s)))); [| discriminate].
    exists p, s. split; [exact H | lia].
  - destruct (atStart fl p); [| discriminate].
    exists p, s. split; [exact H | lia].
  - destruct (atEnd fl s); [| discriminate].
    exists p, s. split; [exact H | lia].
  - apply IHr1 in H as (p1 & s1 & H1 & L1).
    apply IHr2 in H1 as (p2 & s2 & H2 & L2).
    exists p2, s2. split; [exact H2 | lia].
  - destruct (matchNode fl r1 k p s) eqn:E.
    + apply IHr1 in E as (p1 & s1 & H1 & L1).
      exists p1, s1. split; [exact H1 | lia].
    + apply IHr2 in H as (p1 & s1 & H1 & L1).
      exists p1, s1. split; [exact H1 | lia].
  - exact (mandatory_shortens r min max k IHr min p s H).
  - exact (IHr k p s H).
Qed.

Lemma searchFrom_needs_minLen (r : Node) :
  forall s i p j, searchFrom fl r i p s = Some j -> minLen r <= length s.
Proof.
  induction s as [| c s IH]; intros i p j H; simpl in H.
  - destruct (matchesHere fl r p []) eqn:E; [| discriminate].
    apply matchNode_shortens in E as (p' & s' & _ & L). lia.
  - destruct (matchesHere fl r p (c :: s)) eqn:E.
    + apply matchNode_shortens in E as (p' & s' & _ & L). lia.
    + apply IH in H. simpl. lia.
Qed.

End MinLength.

Lemma length_list_ascii_of_string (s : string) :
  length (list_ascii_of_string s) = String.length s.
Proof. induction s as [| c s IH]; simpl; [reflexivity | rewrite IH; reflexivity]. Qed.

(** A text shorter than the least match of an expression is not matched. *)
Lemma test_needs_minLen (re : RegExp) (input : string) (r : Node) :
  parse (source re) = Some r ->
  String.length input < minLen r ->
  test re input = false.
Proof.
  intros Hp Hlen. unfold test, exec. rewrite Hp.
  destruct (searchFrom (readFlags (flags re)) r 0 None (list_ascii_of_string input))
    as [j |] eqn:E; [| reflexivity].
  apply searchFrom_needs_minLen in E.
  rewrite length_list_ascii_of_string in E. lia.
Qed.

(** ** The catalog *)

(** [X7] Every entry of the catalog has a non-empty id and description, at
    least one file pattern and one expression; every file pattern has the
    form [**/*.ext], so it selects by the end of the file name and never by
    directory; every expression has no flag or the flag [i] alone (none is
    global or sticky, so a test does not depend on an earlier one); and every
    [confidenceBase] lies between 0.5 and 0.8. *)
Theorem catalog_entries_well_formed :
  Forall WellFormed (getPatternCatalog tt).
Proof.
  eapply List.Forall_impl;
    [| apply (forallb_Forall isWellFormed); vm_compute; reflexivity].
  intros p. apply isWellFormed_spec.
Qed.

(** [X8] In every expression of the catalog, a quantifier that may iterate
    more than once is applied to a single character, class or dot only: no
    repetition is nested in another one. *)
Theorem catalog_repetitions_not_nested :
  Forall (fun re => exists r, parse (source re) = Some r /\ plainRepeats r = true)
         allCodePatterns.
Proof.
  eapply List.Forall_impl;
    [| apply (forallb_Forall
                (fun re => match parse (source re) with
                           | Some r => plainRepeats r
                           | None => false
                           end));
       vm_compute; reflexivity].
  intros re H. cbv beta in H.
  destruct (parse (source re)) as [r |]; [| discriminate H].
  exists r. split; [reflexivity | exact H].
Qed.

(** [X9] No expression of the catalog matches a text of fewer than four
    characters; an empty file, in particular, matches none. *)
Theorem short_text_matches_no_expression :
  Forall (fun re => forall input, String.length input < 4 -> test re input = false)
         allCodePatterns.
Proof.
  eapply List.Forall_impl;
    [| apply (forallb_Forall
                (fun re => match parse (source re) with
                           | Some r => 4 <=? minLen r
                           | None => false
                           end));
       vm_compute; reflexivity].
  intros re H input Hlen. cbv beta in H.
  destruct (parse (source re)) as [r |] eqn:Hp; [| discriminate H].
  apply Nat.leb_le in H.
  apply (test_needs_minLen re input r Hp). lia.
Qed.

End CatalogShape.

(* ===================================================================== *)
(** * Context7 verification of library recommendations                   *)
(* ===================================================================== *)

Module Context7.

(** Status of a verification. *)
Inductive Status : Type := verified | unverified | unavailable.

(** Result of verifying one library recommendation.  The optional fields of
    the interface are options. *)
Record VerificationResult : Type := mkVerificationResult {
  status : Status;
  libraryId : option string;
  documentationUrl : option string;
  version : option string;
  note : option string
}.

(** What [getLibraryDocs] resolves to. *)
Record LibraryDocs : Type := mkLibraryDocs {
  url : string;
  docsVersion : string
}.

(** A library recommendation to verify. *)
Record VerificationItem : Type := mkVerificationItem {
  libraryName : string;
  useCase : string
}.

(** Maximum retry attempts. *)
Definition MAX_RETRIES : nat := 3.

(** Base delay for exponential backoff in ms. *)
Definition BASE_DELAY_MS : Z := 1000.

Section Verifier.

(** The client is an object outside the program: [ClientState] is whatever
    it remembers between calls, [Err] the values it may throw, and
    [undefined] the value a variable holds before its first assignment. *)
Variable ClientState : Type.
Variable Err : Type.
Variable undefined : Err.

(** How an awaited call ends. *)
Inductive Outcome (A : Type) : Type :=
| Returned (a : A)
| Thrown (e : Err).

Arguments Returned {A} a.
Arguments Thrown {A} e.

(** The client interface: each method may change the client's state and
    either resolves or throws. *)
Record Context7Client : Type := mkClient {
  resolveLibraryId :
    string -> string -> ClientState -> Outcome (option string) * ClientState;
  getLibraryDocs :
    string -> string -> ClientState -> Outcome (option LibraryDocs) * ClientState
}.

(** What the program does to the outside, in order. *)
Inductive Event : Type :=
| ResolveCall (name query : string) (result : Outcome (option string))
| DocsCall (id query : string) (result : Outcome (option LibraryDocs))
| Sleep (ms : Z).

Record World : Type := mkWorld {
  clientState : ClientState;
  trace : list Event
}.

(** Computations that act on the world and end by returning or throwing. *)
Definition M (A : Type) : Type := World -> Outcome A * World.

Definition ret {A : Type} (a : A) : M A := fun w => (Returned a, w).

Definition throw {A : Type} (e : Err) : M A := fun w => (Thrown e, w).

Definition bind {A B : Type} (m : M A) (k : A -> M B) : M B :=
  fun w =>
    match m w with
    | (Returned a, w') => k a w'
    | (Thrown e, w') => (Thrown e, w')
    end.

(** [try { ... } catch { ... }], with the way the body ended as a value. *)
Definition catching {A : Type} (m : M A) : M (Outcome A) :=
  fun w => let '(r, w') := m w in (Returned r, w').

Notation "x <- m ;; k" := (bind m (fun x => k))
  (at level 100, m at next level, right associativity).
Notation "m ;;; k" := (bind m (fun _ => k))
  (at level 100, right associativity).

Definition record (ev : Event) (w : World) : World :=
  mkWorld (clientState w) (trace w ++ [ev]).

(** [sleep(ms)] : nothing but the passing of time. *)
Definition sleep (ms : Z) : M unit := fun w => (Returned tt, record (Sleep ms) w).

Definition callResolve (client : Context7Client) (name query : string)
  : M (option string) :=
  fun w =>
    let '(r, s) := resolveLibraryId client name query (clientState w) in
    (r, record (ResolveCall name query r) (mkWorld s (trace w))).

Definition callDocs (client : Context7Client) (id query : string)
  : M (option LibraryDocs) :=
  fun w =>
    let '(r, s) := getLibraryDocs client id query (clientState w) in
    (r, record (DocsCall id query r) (mkWorld s (trace w))).

(** The loop of [retryWithBackoff]: [remaining] iterations are left, the
    loop counter is [attempt]. *)
Fixpoint retryLoop {A : Type} (fn : M A) (remaining attempt : nat) (lastError : Err)
  : M A :=
  match remaining with
  | O => throw lastError
  | S remaining' =>
      r <- catching fn ;;
      match r with
      | Returned a => ret a
      | Thrown error =>
          (if attempt <? MAX_RETRIES - 1
           then sleep (BASE_DELAY_MS * 2 ^ Z.of_nat attempt)
           else ret tt) ;;;
          retryLoop fn remaining' (S attempt) error
      end
  end.

(** Retry a function with exponential backoff. *)
Definition retryWithBackoff {A : Type} (fn : M A) : M A :=
  retryLoop fn MAX_RETRIES 0 undefined.

Definition quoted (s : string) : string :=
  let dq := String (ascii_of_nat 34) EmptyString in dq +:+ s +:+ dq.

Definition showNat (n : nat) : string :=
  NilEmpty.string_of_uint (Nat.to_uint n).

(** Verify a single library recommendation against Context7. *)
Definition verifyRecommendation (client : Context7Client) (libraryName useCase : string)
  : M VerificationResult :=
  (* Step 1: resolve the library id *)
  r1 <- catching (retryWithBackoff (callResolve client libraryName useCase)) ;;
  match r1 with
  | Thrown _ =>
      ret (mkVerificationResult unavailable None None None
             (Some ("Context7 service error resolving library " +:+ quoted libraryName
                    +:+ " after " +:+ showNat MAX_RETRIES +:+ " retries")))
  | Returned None =>
      ret (mkVerificationResult unverified None None None
             (Some ("Library " +:+ quoted libraryName +:+ " not found in Context7")))
  | Returned (Some libraryId) =>
      (* Step 2: get the library docs *)
      r2 <- catching (retryWithBackoff (callDocs client libraryId useCase)) ;;
      match r2 with
      | Thrown _ =>
          ret (mkVerificationResult unavailable (Some libraryId) None None
                 (Some ("Context7 service error fetching docs for " +:+ quoted libraryName
                        +:+ " after " +:+ showNat MAX_RETRIES +:+ " retries")))
      | Returned None =>
          ret (mkVerificationResult unverified (Some libraryId) None None
                 (Some ("Documentation for " +:+ quoted libraryName
                        +:+ " does not confirm use case " +:+ quoted useCase)))
      | Returned (Some docs) =>
          ret (mkVerificationResult verified (Some libraryId)
                 (Some (url docs)) (Some (docsVersion docs)) None)
      end
  end.

(** The loop of [verifyAllRecommendations] from index [i] on. *)
Fixpoint verifyLoop (client : Context7Client) (items : list (option VerificationItem))
         (i : nat) (results : gmap nat VerificationResult)
  : M (gmap nat VerificationResult) :=
  match items with
  | [] => ret results
  | None :: rest => verifyLoop client rest (S i) results
  | Some item :: rest =>
      result <- verifyRecommendation client (libraryName item) (useCase item) ;;
      verifyLoop client rest (S i) (<[i := result]> results)
  end.

(** Verify all library recommendations; the map is keyed by item index. *)
Definition verifyAllRecommendations (client : Context7Client)
           (items : list (option VerificationItem))
  : M (gmap nat VerificationResult) :=
  verifyLoop client items 0 ∅.

(** ** What one retried call leaves in the trace *)

(** The runs of [retryWithBackoff] around a call that logs the event
    [mk r] when it ends with [r]: success at the first, second or third
    attempt, or three failures; a failed attempt is followed by a sleep of
    1000 ms, then 2000 ms, and the third failure by none. *)
Inductive RetryRun {A : Type} (mk : Outcome A -> Event)
  : Outcome A -> list Event -> Prop :=
| RunFirst (a : A) :
    RetryRun mk (Returned a) [mk (Returned a)]
| RunSecond (e1 : Err) (a : A) :
    RetryRun mk (Returned a) [mk (Thrown e1); Sleep 1000; mk (Returned a)]
| RunThird (e1 e2 : Err) (a : A) :
    RetryRun mk (Returned a)
      [mk (Thrown e1); Sleep 1000; mk (Thrown e2); Sleep 2000; mk (Returned a)]
| RunFailed (e1 e2 e3 : Err) :
    RetryRun mk (Thrown e3)
      [mk (Thrown e1); Sleep 1000; mk (Thrown e2); Sleep 2000; mk (Thrown e3)].

Definition isCall (ev : Event) : bool :=
  match ev with
  | ResolveCall _ _ _ => true
  | DocsCall _ _ _ => true
  | Sleep _ => false
  end.

(** Number of attempts in a trace. *)
Definition attempts (evs : list Event) : nat :=
  length (List.filter isCall evs).

(** The delays slept in a trace, in order. *)
Definition delays (evs : list Event) : list Z :=
  flat_map (fun ev => match ev with
                      | Sleep ms => [ms]
                      | _ => []
                      end) evs.

Lemma retryLoop_S {A : Type} (fn : M A) (remaining attempt : nat) (lastError : Err)
      (w : World) :
  retryLoop fn (S remaining) attempt lastError w =
  match fn w with
  | (Returned a, w') => (Returned a, w')
  | (Thrown error, w') =>
      retryLoop fn remaining (S attempt) error
        (if attempt <? MAX_RETRIES - 1
         then record (Sleep (BASE_DELAY_MS * 2 ^ Z.of_nat attempt)) w'
         else w')
  end.
Proof.
  simpl. unfold bind, catching.
  destruct (fn w) as [[a | error] w']; [reflexivity |].
  unfold MAX_RETRIES. simpl.
  destruct (attempt <? 2); reflexivity.
Qed.

Section Retry.

Variable A : Type.
Variable fn : M A.
Variable mk : Outcome A -> Event.
Hypothesis fn_logs :
  forall w, trace (snd (fn w)) = trace w ++ [mk (fst (fn w))].

Lemma retryWithBackoff_run (w : World) :
  exists evs,
    RetryRun mk (fst (retryWithBackoff fn w)) evs /\
    trace (snd (retryWithBackoff fn w)) = trace w ++ evs.
Proof.
  unfold retryWithBackoff, MAX_RETRIES.
  rewrite retryLoop_S.
  pose proof (fn_logs w) as L1.
  destruct (fn w) as [[a | e1] w1]; simpl in L1.
  { eexists. split; [apply RunFirst | exact L1]. }
  rewrite retryLoop_S.
  change (0 <? MAX_RETRIES - 1) with true. cbv iota.
  change (BASE_DELAY_MS * 2 ^ Z.of_nat 0)%Z with 1000%Z.
  pose proof (fn_logs (record (Sleep 1000) w1)) as L2.
  destruct (fn (record (Sleep 1000) w1)) as [[a | e2] w2];
    simpl in L2; rewrite L1, <- !app_assoc in L2; simpl in L2.
  { eexists. split; [apply RunSecond | exact L2]. }
  rewrite retryLoop_S.
  change (1 <? MAX_RETRIES - 1) with true. cbv iota.
  change (BASE_DELAY_MS * 2 ^ Z.of_nat 1)%Z with 2000%Z.
  pose proof (fn_logs (record (Sleep 2000) w2)) as L3.
  destruct (fn (record (Sleep 2000) w2)) as [[a | e3] w3];
    simpl in L3; rewrite L2, <- !app_assoc in L3; simpl in L3.
  { eexists. split; [apply RunThird | exact L3]. }
  change (2 <? MAX_RETRIES - 1) with false. cbv iota. simpl.
  eexists. split; [apply RunFailed | exact L3].
Qed.

End Retry.

Lemma RetryRun_attempts {A : Type} (mk : Outcome A -> Event) (r : Outcome A)
      (evs : list Event) :
  (forall x, isCall (mk x) = true) ->
  RetryRun mk r evs ->
  1 <= attempts evs <= MAX_RETRIES /\
  (delays evs = [] \/ delays evs = [1000%Z] \/ delays evs = [1000%Z; 2000%Z]).
Proof.
  intros Hmk H. unfold attempts, MAX_RETRIES, delays.
  destruct H; simpl; rewrite ?Hmk; simpl;
    repeat match goal with
      | |- context [mk ?x] =>
          let E := fresh in
          pose proof (Hmk x) as E; destruct (mk x); simpl in E;
          try discriminate; clear E
      end; simpl; (split; [lia | auto]).
Qed.

Lemma callResolve_logs (client : Context7Client) (name query : string) (w : World) :
  trace (snd (callResolve client name query w)) =
  trace w ++ [ResolveCall name query (fst (callResolve client name query w))].
Proof.
  unfold callResolve.
  destruct (resolveLibraryId client name query (clientState w)) as [r s].
  reflexivity.
Qed.

Lemma callDocs_logs (client : Context7Client) (id query : string) (w : World) :
  trace (snd (callDocs client id query w)) =
  trace w ++ [DocsCall id query (fst (callDocs client id query w))].
Proof.
  unfold callDocs.
  destruct (getLibraryDocs client id query (clientState w)) as [r s].
  reflexivity.
Qed.

(** The verdict that [verifyRecommendation] draws from the way the two
    retried calls ended ([r2] is [None] when the second call is not made). *)
Definition verdict (r1 : Outcome (option string))
           (r2 : option (Outcome (option LibraryDocs))) (res : VerificationResult)
  : Prop :=
  match r1, r2 with
  | Thrown _, None => status res = unavailable
  | Returned None, None => status res = unverified
  | Returned (Some id), Some (Thrown _) =>
      status res = unavailable /\ libraryId res = Some id
  | Returned (Some id), Some (Returned None) =>
      status res = unverified /\ libraryId res = Some id
  | Returned (Some id), Some (Returned (Some docs)) =>
      status res = verified /\ libraryId res = Some id /\
      documentationUrl res = Some (url docs) /\
      version res = Some (docsVersion docs)
  | _, _ => False
  end.

(** The second retried call: absent unless the first one returned an id. *)
Definition DocsRun (useCase : string) (r1 : Outcome (option string))
           (r2 : option (Outcome (option LibraryDocs))) (evs : list Event) : Prop :=
  match r1, r2 with
  | Returned (Some id), Some r => RetryRun (DocsCall id useCase) r evs
  | Returned (Some _), None => False
  | _, Some _ => False
  | _, None => evs = []
  end.

Lemma verifyRecommendation_runs (client : Context7Client) (name use : string) (w : World) :
  exists res w' r1 r2 resolves docs,
    verifyRecommendation client name use w = (Returned res, w') /\
    trace w' = trace w ++ resolves ++ docs /\
    RetryRun (ResolveCall name use) r1 resolves /\
    DocsRun use r1 r2 docs /\
    verdict r1 r2 res.
Proof.
  unfold verifyRecommendation, bind at 1, catching at 1.
  destruct (retryWithBackoff_run _ (callResolve client name use) (ResolveCall name use)
              (callResolve_logs client name use) w) as [evs1 [R1 T1]].
  destruct (retryWithBackoff (callResolve client name use) w) as [r1 w1].
  simpl in R1, T1.
  destruct r1 as [[id |] | e].
  - unfold bind, catching.
    destruct (retryWithBackoff_run _ (callDocs client id use) (DocsCall id use)
                (callDocs_logs client id use) w1) as [evs2 [R2 T2]].
    destruct (retryWithBackoff (callDocs client id use) w1) as [r2 w2].
    simpl in R2, T2. rewrite T1, <- app_assoc in T2.
    destruct r2 as [[d |] | e]; unfold ret;
      eexists _, w2, (Returned (Some id)), (Some _), evs1, evs2;
      (split; [reflexivity |]); (split; [exact T2 |]); (split; [exact R1 |]);
      (split; [exact R2 |]); simpl; auto.
  - unfold ret.
    exists (mkVerificationResult unverified None None None
              (Some ("Library " +:+ quoted name +:+ " not found in Context7"))),
      w1, (Returned None), None, evs1, [].
    rewrite app_nil_r. repeat split; auto.
  - unfold ret. eexists _, w1, (Thrown e), None, evs1, [].
    rewrite app_nil_r. repeat split; auto.
Qed.

Lemma RetryRun_all_thrown {A : Type} (mk : Outcome A -> Event) (r : Outcome A)
      (evs : list Event) :
  RetryRun mk r evs ->
  (forall x, In (mk x) evs -> exists e, x = Thrown e) ->
  exists e, r = Thrown e.
Proof.
  intros H Hall.
  destruct H as [a | e1 a | e1 e2 a | e1 e2 e3];
    try (apply (Hall (Returned a)); simpl; tauto).
  exists e3. reflexivity.
Qed.

Lemma RetryRun_returned {A : Type} (mk : Outcome A -> Event) (r : Outcome A)
      (evs : list Event) (a : A) :
  (forall x y, mk x = mk y -> x = y) ->
  (forall x ms, mk x <> Sleep ms) ->
  RetryRun mk r evs ->
  In (mk (Returned a)) evs ->
  r = Returned a.
Proof.
  intros Hinj Hsleep H Hin.
  destruct H; simpl in Hin;
    repeat match goal with
      | H : _ \/ _ |- _ => destruct H
      | H : False |- _ => destruct H
      | H : Sleep _ = mk _ |- _ => symmetry in H; apply Hsleep in H; destruct H
      | H : mk _ = mk _ |- _ => apply Hinj in H; try discriminate H; inversion H; subst
      end; reflexivity.
Qed.

(** Only a retried call that returned a library id is followed by calls
    for the docs. *)
Lemma DocsRun_none (useCase : string) (r1 : Outcome (option string))
      (r2 : option (Outcome (option LibraryDocs))) (evs : list Event) :
  DocsRun useCase r1 r2 evs ->
  (forall id, r1 <> Returned (Some id)) ->
  r2 = None /\ evs = [].
Proof.
  unfold DocsRun. intros H Hnot.
  destruct r1 as [[id |] | e]; [exfalso; exact (Hnot id eq_refl) | |];
    destruct r2; [destruct H | auto | destruct H | auto].
Qed.

(** ** The trace against the client *)

(** [Replays client s evs s']: the call events of [evs] carry what the
    client really answers, call after call, from its state [s], and the
    calls leave it in the state [s']; a sleep leaves the client alone. *)
Fixpoint Replays (client : Context7Client) (s : ClientState) (evs : list Event)
         (s' : ClientState) : Prop :=
  match evs with
  | [] => s' = s
  | ResolveCall name query r :: rest =>
      r = fst (resolveLibraryId client name query s) /\
      Replays client (snd (resolveLibraryId client name query s)) rest s'
  | DocsCall id query r :: rest =>
      r = fst (getLibraryDocs client id query s) /\
      Replays client (snd (getLibraryDocs client id query s)) rest s'
  | Sleep _ :: rest => Replays client s rest s'
  end.

Lemma Replays_app (client : Context7Client) (evs1 : list Event) :
  forall s s1 evs2 s2,
    Replays client s evs1 s1 ->
    Replays client s1 evs2 s2 ->
    Replays client s (evs1 ++ evs2) s2.
Proof.
  induction evs1 as [| ev evs1 IH]; intros s s1 evs2 s2 H1 H2; simpl in *.
  - subst s1. exact H2.
  - destruct ev as [n q r | i q r | ms].
    + destruct H1 as [E H1]. split; [exact E | exact (IH _ _ _ _ H1 H2)].
    + destruct H1 as [E H1]. split; [exact E | exact (IH _ _ _ _ H1 H2)].
    + exact (IH _ _ _ _ H1 H2).
Qed.

Lemma callResolve_replays (client : Context7Client) (name query : string) (w : World) :
  Replays client (clientState w)
    [ResolveCall name query (fst (callResolve client name query w))]
    (clientState (snd (callResolve client name query w))).
Proof.
  unfold callResolve.
  destruct (resolveLibraryId client name query (clientState w)) as [r s] eqn:E.
  simpl. rewrite E. split; reflexivity.
Qed.

Lemma callDocs_replays (client : Context7Client) (id query : string) (w : World) :
  Replays client (clientState w)
    [DocsCall id query (fst (callDocs client id query w))]
    (clientState (snd (callDocs client id query w))).
Proof.
  unfold callDocs.
  destruct (getLibraryDocs client id query (clientState w)) as [r s] eqn:E.
  simpl. rewrite E. split; reflexivity.
Qed.

Section RetryReplays.

Variable client : Context7Client.
Variable A : Type.
Variable fn : M A.
Variable mk : Outcome A -> Event.
Hypothesis fn_logs :
  forall w, trace (snd (fn w)) = trace w ++ [mk (fst (fn w))].
Hypothesis fn_replays :
  forall w, Replays client (clientState w) [mk (fst (fn w))] (clientState (snd (fn w))).

(** A retried call leaves in the trace one of the four runs, and the run is
    what the client has answered. *)
Lemma retryWithBackoff_replays (w : World) :
  exists evs,
    RetryRun mk (fst (retryWithBackoff fn w)) evs /\
    trace (snd (retryWithBackoff fn w)) = trace w ++ evs /\
    Replays client (clientState w) evs (clientState (snd (retryWithBackoff fn w))).
Proof.
  unfold retryWithBackoff, MAX_RETRIES.
  rewrite retryLoop_S.
  pose proof (fn_logs w) as L1. pose proof (fn_replays w) as P1.
  destruct (fn w) as [[a | e1] w1]; simpl in L1, P1.
  { eexists. split; [apply RunFirst |]. split; [exact L1 | exact P1]. }
  rewrite retryLoop_S.
  change (0 <? MAX_RETRIES - 1) with true. cbv iota.
  change (BASE_DELAY_MS * 2 ^ Z.of_nat 0)%Z with 1000%Z.
  pose proof (fn_logs (record (Sleep 1000) w1)) as L2.
  pose proof (fn_replays (record (Sleep 1000) w1)) as P2.
  destruct (fn (record (Sleep 1000) w1)) as [[a | e2] w2];
    simpl in L2, P2; rewrite L1, <- !app_assoc in L2; simpl in L2.
  { eexists. split; [apply RunSecond |]. split; [exact L2 |].
    exact (Replays_app client [mk (Thrown e1)] _ _ [Sleep 1000; mk (Returned a)] _
             P1 P2). }
  rewrite retryLoop_S.
  change (1 <? MAX_RETRIES - 1) with true. cbv iota.
  change (BASE_DELAY_MS * 2 ^ Z.of_nat 1)%Z with 2000%Z.
  pose proof (fn_logs (record (Sleep 2000) w2)) as L3.
  pose proof (fn_replays (record (Sleep 2000) w2)) as P3.
  destruct (fn (record (Sleep 2000) w2)) as [[a | e3] w3];
    simpl in L3, P3; rewrite L2, <- !app_assoc in L3; simpl in L3.
  { eexists. split; [apply RunThird |]. split; [exact L3 |].
    refine (Replays_app client [mk (Thrown e1)] _ _ _ _ P1 _).
    exact (Replays_app client [Sleep 1000; mk (Thrown e2)] _ _
             [Sleep 2000; mk (Returned a)] _ P2 P3). }
  change (2 <? MAX_RETRIES - 1) with false. cbv iota. simpl.
  eexists. split; [apply RunFailed |]. split; [exact L3 |].
  refine (Replays_app client [mk (Thrown e1)] _ _ _ _ P1 _).
  exact (Replays_app client [Sleep 1000; mk (Thrown e2)] _ _
           [Sleep 2000; mk (Thrown e3)] _ P2 P3).
Qed.

End RetryReplays.

(** The runs of [verifyRecommendation] against the client: [s1] is the state
    in which the retried [resolveLibraryId] call has left it. *)
Lemma verifyRecommendation_replays (client : Context7Client) (name use : string)
      (w : World) :
  exists res w' r1 r2 resolves docs s1,
    verifyRecommendation client name use w = (Returned res, w') /\
    trace w' = trace w ++ resolves ++ docs /\
    RetryRun (ResolveCall name use) r1 resolves /\
    DocsRun use r1 r2 docs /\
    verdict r1 r2 res /\
    Replays client (clientState w) resolves s1 /\
    Replays client s1 docs (clientState w').
Proof.
  unfold verifyRecommendation, bind at 1, catching at 1.
  destruct (retryWithBackoff_replays client _ (callResolve client name use)
              (ResolveCall name use) (callResolve_logs client name use)
              (callResolve_replays client name use) w) as [evs1 [R1 [T1 P1]]].
  destruct (retryWithBackoff (callResolve client name use) w) as [r1 w1].
  simpl in R1, T1, P1.
  destruct r1 as [[id |] | e].
  - unfold bind, catching.
    destruct (retryWithBackoff_replays client _ (callDocs client id use)
                (DocsCall id use) (callDocs_logs client id use)
                (callDocs_replays client id use) w1) as [evs2 [R2 [T2 P2]]].
    destruct (retryWithBackoff (callDocs client id use) w1) as [r2 w2].
    simpl in R2, T2, P2. rewrite T1, <- app_assoc in T2.
    destruct r2 as [[d |] | e]; unfold ret;
      eexists _, w2, (Returned (Some id)), (Some _), evs1, evs2, (clientState w1);
      (split; [reflexivity |]); (split; [exact T2 |]); (split; [exact R1 |]);
      (split; [exact R2 |]); (split; [simpl; auto |]);
      (split; [exact P1 | exact P2]).
  - unfold ret.
    exists (mkVerificationResult unverified None None None
              (Some ("Library " +:+ quoted name +:+ " not found in Context7"))),
      w1, (Returned None), None, evs1, [], (clientState w1).
    rewrite app_nil_r. repeat split; auto.
  - unfold ret. eexists _, w1, (Thrown e), None, evs1, [], (clientState w1).
    rewrite app_nil_r. repeat split; auto.
Qed.

(** [C9] [verifyRecommendation] always returns a result (it never throws).
    Its trace is the retried [resolveLibraryId] call followed by the retried
    [getLibraryDocs] call, if any, and the call events are what the client
    has answered, in its successive states; each retried call makes at most
    3 attempts and sleeps 1000 ms after the first failure and 2000 ms after
    the second.  If every [resolveLibraryId] attempt throws the status is
    [unavailable]; if [resolveLibraryId] returns null the status is
    [unverified] and [getLibraryDocs] is not called; if [getLibraryDocs]
    returns docs the status is [verified] with their url and version.  The
    three cases are stated over the events of the trace and over the client
    itself: a client whose [resolveLibraryId] throws in every state is asked
    three times; one that returns null at once is asked once; and when the
    client, in the state [s1] left by the resolution of an id, returns docs
    for that id, they are taken at the first attempt. *)
Theorem verifyRecommendation_retries_and_statuses
        (client : Context7Client) (name use : string) (w : World) :
  exists res w' r1 r2 resolves docs s1,
    verifyRecommendation client name use w = (Returned res, w') /\
    trace w' = trace w ++ resolves ++ docs /\
    RetryRun (ResolveCall name use) r1 resolves /\
    DocsRun use r1 r2 docs /\
    Replays client (clientState w) resolves s1 /\
    Replays client s1 docs (clientState w') /\
    attempts resolves <= 3 /\
    attempts docs <= 3 /\
    (delays resolves = [] \/ delays resolves = [1000%Z] \/
     delays resolves = [1000%Z; 2000%Z]) /\
    (delays docs = [] \/ delays docs = [1000%Z] \/
     delays docs = [1000%Z; 2000%Z]) /\
    ((forall r, In (ResolveCall name use r) resolves -> exists e, r = Thrown e) ->
     status res = unavailable) /\
    (In (ResolveCall name use (Returned None)) resolves ->
     status res = unverified /\ docs = []) /\
    (forall id d, In (DocsCall id use (Returned (Some d))) docs ->
     status res = verified /\
     documentationUrl res = Some (url d) /\
     version res = Some (docsVersion d)) /\
    ((forall s, exists e, fst (resolveLibraryId client name use s) = Thrown e) ->
     status res = unavailable /\ attempts resolves = 3 /\
     delays resolves = [1000%Z; 2000%Z] /\ docs = []) /\
    (fst (resolveLibraryId client name use (clientState w)) = Returned None ->
     status res = unverified /\
     resolves = [ResolveCall name use (Returned None)] /\ docs = []) /\
    (forall id d,
        r1 = Returned (Some id) ->
        fst (getLibraryDocs client id use s1) = Returned (Some d) ->
        status res = verified /\
        documentationUrl res = Some (url d) /\
        version res = Some (docsVersion d) /\
        docs = [DocsCall id use (Returned (Some d))]).
Proof.
  destruct (verifyRecommendation_replays client name use w)
    as (res & w' & r1 & r2 & resolves & docs & s1 &
        Hrun & Htrace & HR1 & HR2 & Hv & HP1 & HP2).
  exists res, w', r1, r2, resolves, docs, s1.
  assert (1 <= attempts resolves <= MAX_RETRIES /\
          (delays resolves = [] \/ delays resolves = [1000%Z] \/
           delays resolves = [1000%Z; 2000%Z])) as [Ha1 Hd1]
      by (eapply RetryRun_attempts; [| exact HR1]; reflexivity).
  assert (attempts docs <= 3 /\
          (delays docs = [] \/ delays docs = [1000%Z] \/
           delays docs = [1000%Z; 2000%Z])) as [Ha2 Hd2].
  { unfold DocsRun in HR2.
    destruct r1 as [[id |] | e], r2 as [r2 |]; try contradiction;
      try (subst docs; simpl; split; [unfold attempts; simpl; lia | auto]).
    destruct (RetryRun_attempts (DocsCall id use) r2 docs (fun _ => eq_refl) HR2)
      as [H1 H2].
    unfold MAX_RETRIES in H1. split; [lia | exact H2]. }
  unfold MAX_RETRIES in Ha1.
  repeat (split; [first [assumption | lia] |]).
  split; [| split; [| split; [| split; [| split]]]].
  - intros Hall.
    destruct (RetryRun_all_thrown _ _ _ HR1 Hall) as [e ->].
    destruct (DocsRun_none _ _ _ _ HR2) as [-> _]; [discriminate |].
    exact Hv.
  - intros Hin.
    assert (r1 = Returned None) as ->.
    { eapply RetryRun_returned; [| | exact HR1 | exact Hin].
      - intros x y E. inversion E. reflexivity.
      - intros x ms E. discriminate. }
    destruct (DocsRun_none _ _ _ _ HR2) as [-> ->]; [discriminate |].
    split; [exact Hv | reflexivity].
  - intros id d Hin.
    unfold DocsRun in HR2.
    destruct r1 as [[id1 |] | e], r2 as [r2 |]; try contradiction;
      try (subst docs; destruct Hin).
    assert (r2 = Returned (Some d) /\ id1 = id) as [-> ->].
    { destruct HR2; simpl in Hin;
        repeat match goal with
          | H : _ \/ _ |- _ => destruct H
          | H : False |- _ => destruct H
          | H : Sleep _ = DocsCall _ _ _ |- _ => discriminate H
          | H : DocsCall _ _ _ = DocsCall _ _ _ |- _ => inversion H; subst; clear H
          end; split; reflexivity. }
    simpl in Hv. tauto.
  - intros Hall.
    assert (forall s a, Returned a <> fst (resolveLibraryId client name use s)) as Hno.
    { intros s a E. destruct (Hall s) as [e He]. rewrite He in E. discriminate E. }
    destruct HR1 as [a | e1 a | e1 e2 a | e1 e2 e3]; simpl in HP1.
    + destruct HP1 as [E _]. destruct (Hno _ _ E).
    + destruct HP1 as [_ [E _]]. destruct (Hno _ _ E).
    + destruct HP1 as [_ [_ [E _]]]. destruct (Hno _ _ E).
    + destruct (DocsRun_none _ _ _ _ HR2) as [-> ->]; [discriminate |].
      split; [exact Hv |]. repeat split.
  - intros Hnull.
    destruct HR1 as [a | e1 a | e1 e2 a | e1 e2 e3]; simpl in HP1;
      destruct HP1 as [E _]; rewrite Hnull in E; try discriminate E.
    inversion E; subst a.
    destruct (DocsRun_none _ _ _ _ HR2) as [-> ->]; [discriminate |].
    split; [exact Hv |]. split; reflexivity.
  - intros id d -> Hdocs.
    unfold DocsRun in HR2. destruct r2 as [r2 |]; [| contradiction].
    destruct HR2 as [a | e1 a | e1 e2 a | e1 e2 e3]; simpl in HP2;
      destruct HP2 as [E _]; rewrite Hdocs in E; try discriminate E.
    inversion E; subst a. simpl in Hv.
    destruct Hv as (Hs & _ & Hu & Hver).
    repeat split; assumption.
Qed.

(** ** The batch loop *)




Lemma verifyRecommendation_returns (client : Context7Client) (name use : string)
      (w : World) :
  exists res w', verifyRecommendation client name use w = (Returned res, w').
Proof.
  destruct (verifyRecommendation_runs client name use w)
    as (res & w' & _ & _ & _ & _ & H & _).
  exists res, w'. exact H.
Qed.

(** The loop started at index [i0] with the map [acc]: it returns; it leaves
    the entries below [i0] as they are; the entry of a non-null item is the
    result of [verifyRecommendation] run on that item in the world that the
    loop over the items before it has left; the entry of any other index at or
    after [i0] is that of [acc]. *)
Lemma verifyLoop_spec (client : Context7Client) (items : list (option VerificationItem)) :
  forall (i0 : nat) (acc : gmap nat VerificationResult) (w : World),
  exists m w',
    verifyLoop client items i0 acc w = (Returned m, w') /\
    (forall k, k < i0 -> m !! k = acc !! k) /\
    (forall j item, items !! j = Some (Some item) ->
       exists mj wj res wj',
         verifyLoop client (take j items) i0 acc w = (Returned mj, wj) /\
         verifyRecommendation client (libraryName item) (useCase item) wj
           = (Returned res, wj') /\
         m !! (i0 + j) = Some res) /\
    (forall j, items !! j = Some None \/ items !! j = None ->
       m !! (i0 + j) = acc !! (i0 + j)).
Proof.
  induction items as [| it rest IH]; intros i0 acc w.
  - exists acc, w. simpl. repeat split; auto.
    intros j item H. rewrite lookup_nil in H. discriminate.
  - destruct it as [item |].
    + simpl. unfold bind at 1.
      destruct (verifyRecommendation_returns client (libraryName item) (useCase item) w)
        as (res & w1 & Hres).
      rewrite Hres.
      destruct (IH (S i0) (<[i0 := res]> acc) w1) as (m & w' & Hrun & Hlow & Hent & Hnone).
      exists m, w'. split; [exact Hrun |]. split; [| split].
      * intros k Hk. rewrite Hlow by lia. apply lookup_insert_ne. lia.
      * intros [| j] item' Hj; simpl in Hj.
        -- inversion Hj; subst item'.
           exists acc, w, res, w1. simpl. split; [reflexivity |]. split; [exact Hres |].
           rewrite Nat.add_0_r, Hlow by lia. apply lookup_insert_eq.
        -- destruct (Hent j item' Hj) as (mj & wj & res' & wj' & H1 & H2 & H3).
           exists mj, wj, res', wj'. simpl. unfold bind at 1. rewrite Hres.
           split; [exact H1 |]. split; [exact H2 |].
           replace (i0 + S j) with (S i0 + j) by lia. exact H3.
      * intros [| j] Hj; simpl in Hj.
        -- destruct Hj as [Hj | Hj]; discriminate Hj.
        -- replace (i0 + S j) with (S i0 + j) by lia.
           rewrite (Hnone j Hj). apply lookup_insert_ne. lia.
    + simpl.
      destruct (IH (S i0) acc w) as (m & w' & Hrun & Hlow & Hent & Hnone).
      exists m, w'. split; [exact Hrun |]. split; [| split].
      * intros k Hk. apply Hlow. lia.
      * intros [| j] item' Hj; simpl in Hj; [discriminate Hj |].
        destruct (Hent j item' Hj) as (mj & wj & res' & wj' & H1 & H2 & H3).
        exists mj, wj, res', wj'. simpl.
        split; [exact H1 |]. split; [exact H2 |].
        replace (i0 + S j) with (S i0 + j) by lia. exact H3.
      * intros [| j] Hj.
        -- rewrite Nat.add_0_r. apply Hlow. lia.
        -- replace (i0 + S j) with (S i0 + j) by lia. apply Hnone. exact Hj.
Qed.


(** ** Exhausted retries, reliable clients and the last call *)

(** [X1] When [retryWithBackoff] throws, [fn] has been called three times
    and has thrown each time; between the calls the program has slept
    1000 ms and 2000 ms, and nothing follows the third call; the value thrown
    is the one of the third call, not of the first. *)
Theorem retryWithBackoff_rethrows_last {A : Type} (fn : M A) (w : World) (e : Err) :
  fst (retryWithBackoff fn w) = Thrown e ->
  exists e1 e2 w1 w2 w3,
    fn w = (Thrown e1, w1) /\
    fn (record (Sleep 1000) w1) = (Thrown e2, w2) /\
    fn (record (Sleep 2000) w2) = (Thrown e, w3) /\
    snd (retryWithBackoff fn w) = w3.
Proof.
  unfold retryWithBackoff, MAX_RETRIES. rewrite retryLoop_S.
  destruct (fn w) as [[a | e1] w1]; [simpl; intros H; discriminate H |].
  rewrite retryLoop_S.
  change (0 <? MAX_RETRIES - 1) with true. cbv iota.
  change (BASE_DELAY_MS * 2 ^ Z.of_nat 0)%Z with 1000%Z.
  destruct (fn (record (Sleep 1000) w1)) as [[a | e2] w2] eqn:E2;
    [simpl; intros H; discriminate H |].
  rewrite retryLoop_S.
  change (1 <? MAX_RETRIES - 1) with true. cbv iota.
  change (BASE_DELAY_MS * 2 ^ Z.of_nat 1)%Z with 2000%Z.
  destruct (fn (record (Sleep 2000) w2)) as [[a | e3] w3] eqn:E3;
    [simpl; intros H; discriminate H |].
  change (2 <? MAX_RETRIES - 1) with false. cbv iota. simpl.
  intros H. inversion H; subst.
  exists e1, e2, w1, w2, w3. repeat split; assumption.
Qed.

(** A client none of whose methods ever throws. *)
Definition neverThrows (client : Context7Client) : Prop :=
  (forall n q s, exists v, fst (resolveLibraryId client n q s) = Returned v) /\
  (forall i q s, exists v, fst (getLibraryDocs client i q s) = Returned v).

(** [X2] Against a client that never throws, [verifyRecommendation] calls
    [resolveLibraryId] exactly once; if that call returns null, nothing
    else happens (the null is taken as the answer, not retried) and the
    status is [unverified]; if it returns an id, [getLibraryDocs] is called
    exactly once, with that id, and the status is [verified] or, for a null,
    [unverified].  The program never sleeps, the status is never
    [unavailable], and the client is left in the state after these calls. *)
Theorem reliable_client_is_asked_once
        (client : Context7Client) (name use : string) (w : World) :
  neverThrows client ->
  exists res w' r1 s1,
    verifyRecommendation client name use w = (Returned res, w') /\
    resolveLibraryId client name use (clientState w) = (Returned r1, s1) /\
    match r1 with
    | None =>
        trace w' = trace w ++ [ResolveCall name use (Returned None)] /\
        clientState w' = s1 /\
        status res = unverified
    | Some id =>
        exists r2 s2,
          getLibraryDocs client id use s1 = (Returned r2, s2) /\
          trace w' = trace w ++ [ResolveCall name use (Returned (Some id));
                                 DocsCall id use (Returned r2)] /\
          clientState w' = s2 /\
          status res = match r2 with
                       | Some _ => verified
                       | None => unverified
                       end
    end.
Proof.
  intros [Hres Hdocs].
  unfold verifyRecommendation, bind, catching, retryWithBackoff, MAX_RETRIES.
  rewrite retryLoop_S. unfold callResolve at 1.
  destruct (Hres name use (clientState w)) as [v Hv].
  destruct (resolveLibraryId client name use (clientState w)) as [r s].
  simpl in Hv. subst r.
  destruct v as [id |].
  - rewrite retryLoop_S. unfold callDocs at 1. cbn [clientState record].
    destruct (Hdocs id use s) as [v Hv].
    destruct (getLibraryDocs client id use s) as [r s'] eqn:E.
    simpl in Hv. subst r.
    destruct v as [d |]; unfold ret;
      eexists _, _, (Some id), s; (split; [reflexivity |]);
      (split; [reflexivity |]);
      eexists _, s'; (split; [exact E |]);
      (split; [simpl; rewrite <- app_assoc; reflexivity |]);
      split; reflexivity.
  - unfold ret. eexists _, _, None, s. split; [reflexivity |].
    split; [reflexivity |]. repeat split.
Qed.

(** Three failed attempts of one call, with the two sleeps between them. *)
Definition threeFailures {A : Type} (mk : Outcome A -> Event) (evs : list Event) : Prop :=
  exists e1 e2 e3,
    evs = [mk (Thrown e1); Sleep 1000; mk (Thrown e2); Sleep 2000; mk (Thrown e3)].

Lemma RetryRun_last {A : Type} (mk : Outcome A -> Event) (r : Outcome A)
      (evs : list Event) :
  RetryRun mk r evs -> exists init, evs = init ++ [mk r].
Proof.
  intros H. destruct H.
  - exists []. reflexivity.
  - exists [mk (Thrown e1); Sleep 1000]. reflexivity.
  - exists [mk (Thrown e1); Sleep 1000; mk (Thrown e2); Sleep 2000]. reflexivity.
  - exists [mk (Thrown e1); Sleep 1000; mk (Thrown e2); Sleep 2000]. reflexivity.
Qed.

Lemma RetryRun_thrown {A : Type} (mk : Outcome A -> Event) (e : Err)
      (evs : list Event) :
  RetryRun mk (Thrown e) evs -> threeFailures mk evs.
Proof.
  intros H. inversion H; subst. exists e1, e2, e. reflexivity.
Qed.

(** The library id that a retried [resolveLibraryId] call has produced. *)
Definition resolvedId (r1 : Outcome (option string)) : option string :=
  match r1 with
  | Returned (Some id) => Some id
  | _ => None
  end.

(** The runs of [verifyRecommendation], with the [libraryId] of the result. *)
Lemma verifyRecommendation_runs_id (client : Context7Client) (name use : string)
      (w : World) :
  exists res w' r1 r2 resolves docs,
    verifyRecommendation client name use w = (Returned res, w') /\
    trace w' = trace w ++ resolves ++ docs /\
    RetryRun (ResolveCall name use) r1 resolves /\
    DocsRun use r1 r2 docs /\
    verdict r1 r2 res /\
    libraryId res = resolvedId r1.
Proof.
  unfold verifyRecommendation, bind at 1, catching at 1.
  destruct (retryWithBackoff_run _ (callResolve client name use) (ResolveCall name use)
              (callResolve_logs client name use) w) as [evs1 [R1 T1]].
  destruct (retryWithBackoff (callResolve client name use) w) as [r1 w1].
  simpl in R1, T1.
  destruct r1 as [[id |] | e].
  - unfold bind, catching.
    destruct (retryWithBackoff_run _ (callDocs client id use) (DocsCall id use)
                (callDocs_logs client id use) w1) as [evs2 [R2 T2]].
    destruct (retryWithBackoff (callDocs client id use) w1) as [r2 w2].
    simpl in R2, T2. rewrite T1, <- app_assoc in T2.
    destruct r2 as [[d |] | e]; unfold ret;
      eexists _, w2, (Returned (Some id)), (Some _), evs1, evs2;
      (split; [reflexivity |]); (split; [exact T2 |]); (split; [exact R1 |]);
      (split; [exact R2 |]); simpl; auto.
  - unfold ret. eexists _, w1, (Returned None), None, evs1, [].
    rewrite app_nil_r. repeat split; auto.
  - unfold ret. eexists _, w1, (Thrown e), None, evs1, [].
    rewrite app_nil_r. repeat split; auto.
Qed.

(** [X3] The last client call of [verifyRecommendation] decides the result.
    If it is a [resolveLibraryId] call it has thrown or returned null: the
    result is [unavailable], respectively [unverified], without a
    [libraryId], and in the first case the whole trace is three failed
    attempts.  If it is a [getLibraryDocs] call, the result carries the id the
    call was made with, and it is [unavailable] when the call has thrown (the
    trace then ends with three failed attempts of that call), [unverified]
    when it has returned null, and [verified] with the url and version of
    the docs otherwise. *)
Theorem last_call_decides_the_result
        (client : Context7Client) (name use : string) (w : World) :
  exists res w' evs last,
    verifyRecommendation client name use w = (Returned res, w') /\
    trace w' = trace w ++ evs ++ [last] /\
    match last with
    | ResolveCall _ _ (Thrown _) =>
        status res = unavailable /\ libraryId res = None /\
        threeFailures (ResolveCall name use) (evs ++ [last])
    | ResolveCall _ _ (Returned None) =>
        status res = unverified /\ libraryId res = None
    | ResolveCall _ _ (Returned (Some _)) => False
    | DocsCall id _ (Thrown _) =>
        status res = unavailable /\ libraryId res = Some id /\
        exists before fails,
          evs ++ [last] = before ++ fails /\ threeFailures (DocsCall id use) fails
    | DocsCall id _ (Returned None) =>
        status res = unverified /\ libraryId res = Some id
    | DocsCall id _ (Returned (Some docs)) =>
        status res = verified /\ libraryId res = Some id /\
        documentationUrl res = Some (url docs) /\
        version res = Some (docsVersion docs)
    | Sleep _ => False
    end.
Proof.
  destruct (verifyRecommendation_runs_id client name use w)
    as (res & w' & r1 & r2 & resolves & docs & Hrun & Htrace & HR1 & HR2 & Hv & Hid).
  exists res, w'.
  destruct (RetryRun_last _ _ _ HR1) as [init1 E1].
  unfold DocsRun in HR2.
  destruct r1 as [[id |] | e], r2 as [r2 |]; try contradiction.
  - destruct (RetryRun_last _ _ _ HR2) as [init2 E2].
    exists (resolves ++ init2), (DocsCall id use r2).
    split; [exact Hrun |].
    split; [rewrite Htrace, E2, <- !app_assoc; reflexivity |].
    simpl in Hv, Hid.
    destruct r2 as [[d |] | e2].
    + exact Hv.
    + exact Hv.
    + destruct Hv as [Hs Hl]. split; [exact Hs |]. split; [exact Hl |].
      exists resolves, docs. split; [rewrite E2, <- app_assoc; reflexivity |].
      exact (RetryRun_thrown _ _ _ HR2).
  - subst docs. exists init1, (ResolveCall name use (Returned None)).
    split; [exact Hrun |].
    split; [rewrite Htrace, E1, app_nil_r; reflexivity |].
    split; [exact Hv | exact Hid].
  - subst docs. exists init1, (ResolveCall name use (Thrown e)).
    split; [exact Hrun |].
    split; [rewrite Htrace, E1, app_nil_r; reflexivity |].
    split; [exact Hv |]. split; [exact Hid |].
    rewrite <- E1. exact (RetryRun_thrown _ _ _ HR1).
Qed.

(** [X4] The optional fields of a result follow its status: the url and the
    version of the documentation are present exactly when the status is
    [verified], a note exactly when it is not, and a verified result always
    carries a [libraryId]. *)
Theorem result_fields_follow_status
        (client : Context7Client) (name use : string) (w : World) :
  exists res w',
    verifyRecommendation client name use w = (Returned res, w') /\
    (status res = verified <-> documentationUrl res <> None) /\
    (status res = verified <-> version res <> None) /\
    (status res = verified <-> note res = None) /\
    (status res = verified -> libraryId res <> None).
Proof.
  unfold verifyRecommendation, bind, catching.
  destruct (retryWithBackoff (callResolve client name use) w) as [[[id |] | e] w1].
  - destruct (retryWithBackoff (callDocs client id use) w1) as [[[d |] | e] w2];
      unfold ret; eexists _, _; (split; [reflexivity |]); simpl;
      intuition congruence.
  - unfold ret. eexists _, _. split; [reflexivity |]. simpl. intuition congruence.
  - unfold ret. eexists _, _. split; [reflexivity |]. simpl. intuition congruence.
Qed.

(** ** Cost and composition of the batch *)

(** Total time slept in a trace, in ms. *)
Definition totalDelay (evs : list Event) : Z :=
  fold_right Z.add 0%Z (delays evs).

(** Number of items that are not null. *)
Definition itemCount (items : list (option VerificationItem)) : nat :=
  length (List.filter (fun it => match it with
                                 | Some _ => true
                                 | None => false
                                 end) items).

Lemma attempts_app (evs1 evs2 : list Event) :
  attempts (evs1 ++ evs2) = attempts evs1 + attempts evs2.
Proof. unfold attempts. rewrite List.filter_app, length_app. reflexivity. Qed.

Lemma totalDelay_app (evs1 evs2 : list Event) :
  totalDelay (evs1 ++ evs2) = (totalDelay evs1 + totalDelay evs2)%Z.
Proof.
  unfold totalDelay, delays. rewrite flat_map_app.
  induction (flat_map (fun ev => match ev with
                                 | Sleep ms => [ms]
                                 | _ => []
                                 end) evs1) as [| d l IH]; simpl; [reflexivity | lia].
Qed.

Lemma RetryRun_cost {A : Type} (mk : Outcome A -> Event) (r : Outcome A)
      (evs : list Event) :
  (forall x, isCall (mk x) = true) ->
  RetryRun mk r evs ->
  1 <= attempts evs <= 3 /\ (0 <= totalDelay evs <= 3000)%Z.
Proof.
  intros Hmk H.
  destruct (RetryRun_attempts mk r evs Hmk H) as [Ha Hd].
  unfold MAX_RETRIES in Ha. split; [exact Ha |].
  unfold totalDelay. destruct Hd as [-> | [-> | ->]]; simpl; lia.
Qed.

(** One verification: between one and six client calls, six seconds of
    sleep at most, and the calls are what the client has answered. *)
Lemma verifyRecommendation_cost (client : Context7Client) (name use : string)
      (w : World) :
  exists res w' evs,
    verifyRecommendation client name use w = (Returned res, w') /\
    trace w' = trace w ++ evs /\
    Replays client (clientState w) evs (clientState w') /\
    1 <= attempts evs <= 6 /\ (0 <= totalDelay evs <= 6000)%Z.
Proof.
  destruct (verifyRecommendation_replays client name use w)
    as (res & w' & r1 & r2 & resolves & docs & s1 &
        Hrun & Htrace & HR1 & HR2 & _ & HP1 & HP2).
  exists res, w', (resolves ++ docs).
  split; [exact Hrun |]. split; [exact Htrace |].
  split; [exact (Replays_app client _ _ _ _ _ HP1 HP2) |].
  rewrite attempts_app, totalDelay_app.
  destruct (RetryRun_cost (ResolveCall name use) r1 resolves (fun _ => eq_refl) HR1)
    as [Ha1 Hd1].
  unfold DocsRun in HR2.
  destruct r1 as [[id |] | e], r2 as [r2 |]; try contradiction;
    try (subst docs; change (attempts []) with 0;
         change (totalDelay []) with 0%Z; lia).
  destruct (RetryRun_cost (DocsCall id use) r2 docs (fun _ => eq_refl) HR2)
    as [Ha2 Hd2].
  lia.
Qed.

(** What an item costs: nothing for a null; for any other item, between one
    and six client calls and at most 6000 ms of sleep. *)
Definition itemCost (it : option VerificationItem) (evs : list Event) : Prop :=
  match it with
  | None => evs = []
  | Some _ => 1 <= attempts evs <= 6 /\ (0 <= totalDelay evs <= 6000)%Z
  end.

Lemma itemCost_total (items : list (option VerificationItem))
      (segments : list (list Event)) :
  Forall2 itemCost items segments ->
  itemCount items <= attempts (List.concat segments) <= 6 * itemCount items /\
  (0 <= totalDelay (List.concat segments) <= 6000 * Z.of_nat (itemCount items))%Z.
Proof.
  induction 1 as [| it evs items segments Hit _ IH]; simpl.
  - unfold itemCount, attempts, totalDelay. simpl. lia.
  - rewrite attempts_app, totalDelay_app.
    destruct it as [item |]; simpl in Hit.
    + unfold itemCount in *. simpl. lia.
    + subst evs. change (attempts []) with 0. change (totalDelay []) with 0%Z.
      unfold itemCount in *. simpl. lia.
Qed.

Lemma verifyLoop_cost (client : Context7Client) (items : list (option VerificationItem)) :
  forall (i0 : nat) (acc : gmap nat VerificationResult) (w : World),
    (forall k, i0 <= k -> acc !! k = None) ->
    exists m w' segments,
      verifyLoop client items i0 acc w = (Returned m, w') /\
      trace w' = trace w ++ List.concat segments /\
      Forall2 itemCost items segments /\
      Replays client (clientState w) (List.concat segments) (clientState w') /\
      size m = size acc + itemCount items /\
      (itemCount items = 0 -> m = acc /\ w' = w).
Proof.
  induction items as [| it rest IH]; intros i0 acc w Hacc.
  - exists acc, w, []. simpl. rewrite app_nil_r.
    unfold itemCount. simpl.
    repeat split; first [lia | constructor].
  - destruct it as [item |].
    + simpl. unfold bind at 1.
      destruct (verifyRecommendation_cost client (libraryName item) (useCase item) w)
        as (res & w1 & evs1 & Hres & T1 & P1 & Ha1 & Hd1).
      rewrite Hres.
      destruct (IH (S i0) (<[i0 := res]> acc) w1)
        as (m & w' & segments & Hrun & T & Hcost & P & Hsize & _).
      { intros k Hk. rewrite lookup_insert_ne by lia. apply Hacc. lia. }
      exists m, w', (evs1 :: segments).
      split; [exact Hrun |].
      split; [simpl; rewrite T, T1, <- app_assoc; reflexivity |].
      split; [constructor; [split; assumption | exact Hcost] |].
      split; [exact (Replays_app client _ _ _ _ _ P1 P) |].
      rewrite map_size_insert_None in Hsize by (apply Hacc; lia).
      unfold itemCount in *. simpl. split; lia.
    + simpl.
      destruct (IH (S i0) acc w)
        as (m & w' & segments & Hrun & T & Hcost & P & Hsize & Hz).
      { intros k Hk. apply Hacc. lia. }
      exists m, w', ([] :: segments). unfold itemCount in *. simpl.
      split; [exact Hrun |]. split; [exact T |].
      split; [constructor; [reflexivity | exact Hcost] |].
      split; [exact P |]. split; [exact Hsize | exact Hz].
Qed.

(** [X5] [verifyAllRecommendations] returns a map with one entry for each
    item that is not null.  Its trace falls into one segment for each item,
    in order, and the call events are what the client has answered: the
    segment of a null item is empty; the segment of any other item holds at
    least one and at most six client calls, and at most 6000 ms of sleep.
    Hence the totals of the batch; and for a list that is empty or holds
    nulls only it returns the empty map and touches neither the client nor
    the clock. *)
Theorem verifyAllRecommendations_cost
        (client : Context7Client) (items : list (option VerificationItem)) (w : World) :
  exists m w' segments,
    verifyAllRecommendations client items w = (Returned m, w') /\
    trace w' = trace w ++ List.concat segments /\
    Forall2 itemCost items segments /\
    Replays client (clientState w) (List.concat segments) (clientState w') /\
    size m = itemCount items /\
    itemCount items <= attempts (List.concat segments) <= 6 * itemCount items /\
    (0 <= totalDelay (List.concat segments)
       <= 6000 * Z.of_nat (itemCount items))%Z /\
    (itemCount items = 0 -> m = ∅ /\ w' = w).
Proof.
  unfold verifyAllRecommendations.
  destruct (verifyLoop_cost client items 0 ∅ w)
    as (m & w' & segments & Hrun & T & Hcost & P & Hsize & Hz).
  { intros k _. apply lookup_empty. }
  exists m, w', segments. rewrite map_size_empty in Hsize.
  destruct (itemCost_total items segments Hcost) as [Ha Hd].
  repeat split; try assumption; try lia; apply Hz; assumption.
Qed.

Lemma verifyLoop_app (client : Context7Client) (l1 l2 : list (option VerificationItem)) :
  forall (i : nat) (acc : gmap nat VerificationResult) (w : World),
    verifyLoop client (l1 ++ l2) i acc w =
    match verifyLoop client l1 i acc w with
    | (Returned m, w1) => verifyLoop client l2 (i + length l1) m w1
    | (Thrown e, w1) => (Thrown e, w1)
    end.
Proof.
  induction l1 as [| it l1 IH]; intros i acc w.
  - simpl. rewrite Nat.add_0_r. reflexivity.
  - destruct it as [item |]; simpl.
    + unfold bind.
      destruct (verifyRecommendation client (libraryName item) (useCase item) w)
        as [[res | e] w1]; [| reflexivity].
      rewrite IH. replace (S i + length l1) with (i + S (length l1)) by lia.
      reflexivity.
    + rewrite IH. replace (S i + length l1) with (i + S (length l1)) by lia.
      reflexivity.
Qed.

(** Two runs of the loop over the same items from the same world, at
    different offsets: the same world is left, and the entries are the same
    up to the offset. *)
Lemma verifyLoop_shift (client : Context7Client) (items : list (option VerificationItem)) :
  forall (i : nat) (acc : gmap nat VerificationResult)
         (i' : nat) (acc' : gmap nat VerificationResult) (w : World),
    (forall k, i <= k -> acc !! k = None) ->
    (forall k, i' <= k -> acc' !! k = None) ->
    exists m m' w',
      verifyLoop client items i acc w = (Returned m, w') /\
      verifyLoop client items i' acc' w = (Returned m', w') /\
      (forall k, k < i -> m !! k = acc !! k) /\
      (forall k, k < i' -> m' !! k = acc' !! k) /\
      (forall j, m !! (i + j) = m' !! (i' + j)).
Proof.
  induction items as [| it rest IH]; intros i acc i' acc' w Hacc Hacc'.
  - exists acc, acc', w. simpl. repeat split; auto.
    intros j. rewrite Hacc, Hacc' by lia. reflexivity.
  - destruct it as [item |]; simpl.
    + unfold bind.
      destruct (verifyRecommendation_returns client (libraryName item) (useCase item) w)
        as (res & w1 & Hres).
      rewrite Hres.
      destruct (IH (S i) (<[i := res]> acc) (S i') (<[i' := res]> acc') w1)
        as (m & m' & w' & H1 & H2 & Hlow & Hlow' & Hshift).
      { intros k Hk. rewrite lookup_insert_ne by lia. apply Hacc. lia. }
      { intros k Hk. rewrite lookup_insert_ne by lia. apply Hacc'. lia. }
      exists m, m', w'. split; [exact H1 |]. split; [exact H2 |].
      split; [| split].
      * intros k Hk. rewrite Hlow by lia. apply lookup_insert_ne. lia.
      * intros k Hk. rewrite Hlow' by lia. apply lookup_insert_ne. lia.
      * intros [| j].
        -- rewrite !Nat.add_0_r, Hlow, Hlow' by lia.
           rewrite !lookup_insert_eq. reflexivity.
        -- replace (i + S j) with (S i + j) by lia.
           replace (i' + S j) with (S i' + j) by lia. apply Hshift.
    + destruct (IH (S i) acc (S i') acc' w)
        as (m & m' & w' & H1 & H2 & Hlow & Hlow' & Hshift).
      { intros k Hk. apply Hacc. lia. }
      { intros k Hk. apply Hacc'. lia. }
      exists m, m', w'. split; [exact H1 |]. split; [exact H2 |].
      split; [| split].
      * intros k Hk. apply Hlow. lia.
      * intros k Hk. apply Hlow'. lia.
      * intros [| j].
        -- rewrite !Nat.add_0_r, Hlow, Hlow' by lia.
           rewrite Hacc, Hacc' by lia. reflexivity.
        -- replace (i + S j) with (S i + j) by lia.
           replace (i' + S j) with (S i' + j) by lia. apply Hshift.
Qed.

(** [X6] A batch over [l1 ++ l2] is the batch over [l1] followed by the
    batch over [l2] in the world that the first one has left: it leaves the
    same world, its entries below [length l1] are those of the first batch,
    and its entry at [length l1 + j] is the entry at [j] of the second. *)
Theorem verifyAllRecommendations_app
        (client : Context7Client) (l1 l2 : list (option VerificationItem)) (w : World) :
  exists m1 w1 m2 w2 m,
    verifyAllRecommendations client l1 w = (Returned m1, w1) /\
    verifyAllRecommendations client l2 w1 = (Returned m2, w2) /\
    verifyAllRecommendations client (l1 ++ l2) w = (Returned m, w2) /\
    (forall i, i < length l1 -> m !! i = m1 !! i) /\
    (forall j, m !! (length l1 + j) = m2 !! j).
Proof.
  unfold verifyAllRecommendations. rewrite verifyLoop_app.
  destruct (verifyLoop_spec client l1 0 ∅ w) as (m1 & w1 & Hrun1 & _ & _ & Hnone).
  rewrite Hrun1. simpl.
  destruct (verifyLoop_shift client l2 (length l1) m1 0 ∅ w1)
    as (m & m2 & w2 & H1 & H2 & Hlow & _ & Hshift).
  { intros k Hk. change k with (0 + k). rewrite Hnone.
    - apply lookup_empty.
    - right. apply lookup_ge_None_2. exact Hk. }
  { intros k _. apply lookup_empty. }
  exists m1, w1, m2, w2, m.
  split; [reflexivity |]. split; [exact H2 |]. split; [exact H1 |].
  split; [exact Hlow |]. intros j. apply Hshift.
Qed.

End Verifier.

Arguments Returned {Err A} a.
Arguments Thrown {Err A} e.
Arguments mkClient {ClientState Err} _ _.
Arguments mkWorld {ClientState Err} _ _.
Arguments ResolveCall {Err} _ _ _.
Arguments DocsCall {Err} _ _ _.
Arguments Sleep {Err} _.
Arguments trace {ClientState Err} _.
Arguments clientState {ClientState Err} _.
Arguments verifyRecommendation {ClientState Err} undefined client libraryName useCase _.
Arguments verifyAllRecommendations {ClientState Err} undefined client items _.

(** ** Runs against a mock client *)

(** A mock in the style of the test doubles: it counts the calls made to it,
    and [resolveLibraryId] throws until [failures] calls have been made. *)
Definition flakyClient (failures : nat) : Context7Client nat string :=
  mkClient
    (fun name _ calls =>
       (if calls <? failures
        then Thrown "429"
        else Returned (Some ("/npm/" +:+ name)),
        S calls))
    (fun id _ calls =>
       (Returned (Some (mkLibraryDocs ("https://context7.com" +:+ id) "3.22.4")),
        S calls)).

Definition freshWorld : World nat string := mkWorld 0 [].

Definition zodItem : VerificationItem := mkVerificationItem "zod" "schema validation".

(** Two failures, then success: three attempts, two sleeps, one docs call. *)
Example flaky_twice_verified :
  let '(r, w) := verifyRecommendation "undefined" (flakyClient 2) "zod" "schema validation"
                   freshWorld in
  r = Returned (mkVerificationResult verified (Some "/npm/zod")
                  (Some "https://context7.com/npm/zod") (Some "3.22.4") None) /\
  trace w =
    [ResolveCall "zod" "schema validation" (Thrown "429");
     Sleep 1000;
     ResolveCall "zod" "schema validation" (Thrown "429");
     Sleep 2000;
     ResolveCall "zod" "schema validation" (Returned (Some "/npm/zod"));
     DocsCall "/npm/zod" "schema validation"
       (Returned (Some (mkLibraryDocs "https://context7.com/npm/zod" "3.22.4")))].
Proof. vm_compute. split; reflexivity. Qed.

(** Three failures: the error is not propagated, and no sleep follows the
    last attempt. *)
Example flaky_thrice_unavailable :
  let '(r, w) := verifyRecommendation "undefined" (flakyClient 3) "zod" "schema validation"
                   freshWorld in
  (exists res, r = Returned res /\ status res = unavailable /\ libraryId res = None) /\
  trace w =
    [ResolveCall "zod" "schema validation" (Thrown "429");
     Sleep 1000;
     ResolveCall "zod" "schema validation" (Thrown "429");
     Sleep 2000;
     ResolveCall "zod" "schema validation" (Thrown "429")].
Proof. vm_compute. split; [eexists; repeat split | reflexivity]. Qed.

(** A batch against the same mock: the first item exhausts the failures and
    is unavailable, the null item is skipped, the third item is verified. *)
Example batch_continues_after_failure :
  let '(r, w) := verifyAllRecommendations "undefined" (flakyClient 3)
                   [Some zodItem; None; Some zodItem] freshWorld in
  exists m,
    r = Returned m /\
    status <$> (m !! 0) = Some unavailable /\
    m !! 1 = None /\
    status <$> (m !! 2) = Some verified /\
    m !! 3 = None.
Proof. vm_compute. eexists. repeat split. Qed.

(** A mock whose [resolveLibraryId] throws at every call an error that
    names the number of calls made before it. *)
Definition failingClient : Context7Client nat string :=
  mkClient
    (fun _ _ calls => (Thrown ("error " +:+ showNat calls), S calls))
    (fun _ _ calls => (Returned None, S calls)).

Lemma retryWithBackoff_rethrows_last_witness :
  exists e1 e2 w1 w2 w3,
    callResolve nat string failingClient "zod" "schema validation" freshWorld
      = (Thrown e1, w1) /\
    callResolve nat string failingClient "zod" "schema validation"
      (record nat string (Sleep 1000) w1) = (Thrown e2, w2) /\
    callResolve nat string failingClient "zod" "schema validation"
      (record nat string (Sleep 2000) w2) = (Thrown "error 2", w3) /\
    snd (retryWithBackoff nat string "undefined"
           (callResolve nat string failingClient "zod" "schema validation") freshWorld)
      = w3.
Proof.
  apply (retryWithBackoff_rethrows_last nat string "undefined"
           (callResolve nat string failingClient "zod" "schema validation")
           freshWorld "error 2").
  vm_compute. reflexivity.
Defined.

Lemma reliable_client_is_asked_once_witness :
  exists res w' r1 s1,
    verifyRecommendation "undefined" (flakyClient 0) "zod" "schema validation" freshWorld
      = (Returned res, w') /\
    resolveLibraryId nat string (flakyClient 0) "zod" "schema validation"
      (clientState freshWorld) = (Returned r1, s1) /\
    match r1 with
    | None =>
        trace w' = trace freshWorld
                     ++ [ResolveCall "zod" "schema validation" (Returned None)] /\
        clientState w' = s1 /\
        status res = unverified
    | Some id =>
        exists r2 s2,
          getLibraryDocs nat string (flakyClient 0) id "schema validation" s1
            = (Returned r2, s2) /\
          trace w' = trace freshWorld
                       ++ [ResolveCall "zod" "schema validation" (Returned (Some id));
                           DocsCall id "schema validation" (Returned r2)] /\
          clientState w' = s2 /\
          status res = match r2 with
                       | Some _ => verified
                       | None => unverified
                       end
    end.
Proof.
  apply (reliable_client_is_asked_once nat string "undefined" (flakyClient 0)
           "zod" "schema validation" freshWorld).
  split; intros; eexists; reflexivity.
Defined.


End Context7.

(* ===================================================================== *)
(** * Paths and candidate files                                          *)
(* ===================================================================== *)

Module FileTree.

(** A path is the list of its segments, from the scan root down; the root
    itself is the empty list. *)
Definition Path : Type := list string.

(** A candidate file: its directory (whose length is its depth below the
    scan root), its name and its text. *)
Record FileEntry : Type := mkFile {
  fileDir : Path;
  fileName : string;
  fileContent : string
}.

Definition filePath (f : FileEntry) : Path := fileDir f ++ [fileName f].

Definition path_eqb (p q : Path) : bool := bool_decide (p = q).

Definition memberOf (names : list string) (s : string) : bool :=
  existsb (String.eqb s) names.

End FileTree.

(* ===================================================================== *)
(** * Code organization analysis                                         *)
(* ===================================================================== *)

Module CodeOrganization.

Import FileTree.

Inductive FindingType : Type :=
| GodDirectory
| MixedNamingConvention
| DeepNesting
| BarrelBloat
| CatchAllDirectory
| CircularDependency
| HardcodedConfigValues
| MissingLayer.

Inductive Severity : Type := warning | critical.

Record StructuralFinding : Type := mkFinding {
  findingType : FindingType;
  findingDomain : string;
  severity : Severity;
  paths : list Path;              (* for cycles, the cycle order *)
  findingDescription : string;
  metadata : list (string * string)
}.

Record CodeOrganizationStats : Type := mkStats {
  totalSourceFiles : nat;
  maxDirectoryDepth : nat;
  circularDependencyCount : nat;
  namingConventions : gmap string nat
}.

Definition findingType_eqb (a b : FindingType) : bool :=
  match a, b with
  | GodDirectory, GodDirectory
  | MixedNamingConvention, MixedNamingConvention
  | DeepNesting, DeepNesting
  | BarrelBloat, BarrelBloat
  | CatchAllDirectory, CatchAllDirectory
  | CircularDependency, CircularDependency
  | HardcodedConfigValues, HardcodedConfigValues
  | MissingLayer, MissingLayer => true
  | _, _ => false
  end.

(** Thresholds of section 4.7. *)
Definition GOD_DIRECTORY_WARNING : nat := 15.
Definition GOD_DIRECTORY_CRITICAL : nat := 30.

(** The directories of the skip rule, as the skill description lists them:
    tests, __tests__, __mocks__, fixtures, generated, .storybook. *)
Definition skipDirectories : list string :=
  ["tests"; "__tests__"; "__mocks__"; "fixtures"; "generated"; ".storybook"].

(** ** Paths and names *)

Definition endsWith (suffix s : string) : bool :=
  let n := String.length s in
  let k := String.length suffix in
  (k <=? n) && String.eqb (substring (n - k) k s) suffix.

Definition startsWith (prefix s : string) : bool :=
  String.eqb (substring 0 (String.length prefix) s) prefix.

(** The segments of a slash-separated specifier. *)
Fixpoint splitSlash (cur : string) (s : string) : list string :=
  match s with
  | EmptyString => [cur]
  | String c s' =>
      if Ascii.eqb c "/" then cur :: splitSlash "" s'
      else splitSlash (cur +:+ String c EmptyString) s'
  end.

(** Follows the segments of a relative specifier from a directory; [None]
    when it climbs above the scan root. *)
Fixpoint followSegments (base : Path) (segs : list string) : option Path :=
  match segs with
  | [] => Some base
  | seg :: segs' =>
      if String.eqb seg "." || String.eqb seg "" then followSegments base segs'
      else if String.eqb seg ".." then
        match rev base with
        | [] => None
        | _ :: up => followSegments (rev up) segs'
        end
      else followSegments (base ++ [seg]) segs'
  end.

(** The last segment with an extension appended. *)
Definition withExtension (target : Path) (ext : string) : Path :=
  match rev target with
  | [] => []
  | name :: up => rev up ++ [name +:+ ext]
  end.

(** The directories that hold a file, each once, in order of first
    appearance. *)
Fixpoint distinctPaths (seen : list Path) (ps : list Path) : list Path :=
  match ps with
  | [] => []
  | p :: ps' =>
      if existsb (path_eqb p) seen then distinctPaths seen ps'
      else p :: distinctPaths (p :: seen) ps'
  end.

(** ** Cycle detection *)

(** Nodes are files; each node lists the files it imports, in the order of
    its import statements. *)
Definition Graph : Type := list (Path * list Path).

(** The three states of the depth-first search. *)
Inductive Color : Type :=
| White      (* unvisited *)
| Gray       (* on the stack *)
| Black.     (* finished *)

Record DfsState : Type := mkDfs {
  colors : gmap Path Color;
  found : list (list Path)        (* cycles, latest first *)
}.

Definition colorOf (st : DfsState) (u : Path) : Color :=
  default White (colors st !! u).

Definition setColor (u : Path) (c : Color) (st : DfsState) : DfsState :=
  mkDfs (<[u := c]> (colors st)) (found st).

Definition addCycle (c : list Path) (st : DfsState) : DfsState :=
  mkDfs (colors st) (c :: found st).

Definition successors (g : Graph) (u : Path) : list Path :=
  match List.find (fun e => path_eqb (fst e) u) g with
  | Some e => snd e
  | None => []
  end.

(** Walks the parent chain from the current node (the head of [chain]) back
    to the ancestor [v], inclusive. *)
Fixpoint chainTo (v : Path) (chain : list Path) : list Path :=
  match chain with
  | [] => []
  | x :: up => if path_eqb x v then [x] else x :: chainTo v up
  end.

(** Modelled from the spec: the depth-first search of section 4.6 with the
    three-state coloring; an edge to a node on the stack signals a cycle,
    rebuilt from the parent chain and stored in import order (ancestor
    first).  [chain] holds the ancestors of [u], nearest first; [fuel] bounds
    the depth of the recursion. *)
Fixpoint visit (fuel : nat) (g : Graph) (chain : list Path) (u : Path) (st : DfsState)
  : DfsState :=
  match fuel with
  | O => st
  | S fuel' =>
      let step (acc : DfsState) (v : Path) : DfsState :=
        match colorOf acc v with
        | White => visit fuel' g (u :: chain) v acc
        | Gray => addCycle (rev (chainTo v (u :: chain))) acc
        | Black => acc
        end in
      setColor u Black (fold_left step (successors g u) (setColor u Gray st))
  end.

(** One pass over all nodes, each unvisited node being searched with the
    given fuel. *)
Definition searchWith (fuel : nat) (g : Graph) : DfsState :=
  fold_left (fun acc e =>
               match colorOf acc (fst e) with
               | White => visit fuel g [] (fst e) acc
               | _ => acc
               end) g (mkDfs ∅ []).

(** The recursion is never deeper than the number of nodes (see
    [searchAll_fuel] below). *)
Definition searchAll (g : Graph) : DfsState := searchWith (S (length g)) g.

(** Lexicographic order on paths, segment by segment. *)
Fixpoint pathLeb (p q : Path) : bool :=
  match p, q with
  | [], _ => true
  | _ :: _, [] => false
  | a :: p', b :: q' => if String.eqb a b then pathLeb p' q' else String.leb a b
  end.

Definition smaller (m y : Path) : Path := if pathLeb y m then y else m.

Definition minNode (c : list Path) : option Path :=
  match c with
  | [] => None
  | x :: rest => Some (fold_left smaller rest x)
  end.

(** Splits [c] before the first occurrence of [m]. *)
Fixpoint splitBefore (m : Path) (c : list Path) : list Path * list Path :=
  match c with
  | [] => ([], [])
  | x :: rest =>
      if path_eqb x m then ([], c)
      else let '(before, from) := splitBefore m rest in (x :: before, from)
  end.

(** The rotation of [c] that starts at [m]. *)
Definition rotateTo (m : Path) (c : list Path) : list Path :=
  let '(before, from) := splitBefore m c in from ++ before.

(** Modelled from the spec: a cycle normalized to start at its
    lexicographically smallest node. *)
Definition normalizeCycle (c : list Path) : list Path :=
  match minNode c with
  | Some m => rotateTo m c
  | None => []
  end.

Definition cycle_eqb (a b : list Path) : bool := bool_decide (a = b).

(** Modelled from the spec: each cycle is kept once; two cycles are the same
    when their normalized forms are equal. *)
Fixpoint dedupeCycles (seen : list (list Path)) (cs : list (list Path))
  : list (list Path) :=
  match cs with
  | [] => []
  | c :: rest =>
      let key := normalizeCycle c in
      if existsb (cycle_eqb key) seen then dedupeCycles seen rest
      else c :: dedupeCycles (key :: seen) rest
  end.

(** Modelled from the spec: the Cycle Detector of section 4.6 - the distinct
    cycles, in order of discovery. *)
Definition detectCycles (g : Graph) : list (list Path) :=
  dedupeCycles [] (rev (found (searchAll g))).





(** Unvisited nodes, to measure the fuel the search needs. *)
Definition isWhite (c : Color) : bool :=
  match c with
  | White => true
  | _ => false
  end.

(** The nodes that list their imports, each once. *)
Definition keys (g : Graph) : list Path := distinctPaths [] (map fst g).

(** Number of unvisited nodes among them. *)
Definition whiteKeys (g : Graph) (st : DfsState) : nat :=
  length (List.filter (fun x => isWhite (colorOf st x)) (keys g)).

(** Colors only leave [White]. *)
Definition darker (st st' : DfsState) : Prop :=
  forall x, colorOf st x <> White -> colorOf st' x = colorOf st x.

(** ** The analysis *)

Section Model.

(** Configuration and text-level helpers that the analysis is given: the
    source-extension allow-list; the test for the auto-generated marker of
    the skip rule; the statically written import or include targets of a
    file's text, as written, in order; and the naming-convention classifier
    of section 4.7 (kebab-case, camelCase, PascalCase, snake_case, other),
    from a file name to the convention's name. *)
Variable sourceExtensions : list string.
Variable isAutoGenerated : string -> bool.
Variable importSpecifiers : string -> list string.
Variable classifyName : string -> string.

(** The severity given to a cycle; the specification leaves it open. *)
Variable cycleSeverity : Severity.

(** The detectors of section 4.7 that no statement below is about (mixed
    naming, deep nesting, barrel bloat, catch-all directory, mixed export
    style). *)
Variable otherDetectors : list FileEntry -> list StructuralFinding.

Definition isSourceFile (name : string) : bool :=
  existsb (fun ext => endsWith ext name) sourceExtensions.

(** Modelled from the spec: the skip rule of section 4.7 (the analyzer's
    source is not among the files).  A path under a test, mock, fixture,
    generated or storybook directory, and a file marked as auto-generated, are
    excluded from structural analysis, before every detector. *)
Definition underSkippedDirectory (dir : Path) : bool :=
  existsb (memberOf skipDirectories) dir.

Definition excluded (f : FileEntry) : bool :=
  underSkippedDirectory (fileDir f) || isAutoGenerated (fileContent f).

Definition analysed (files : list FileEntry) : list FileEntry :=
  List.filter (fun f => negb (excluded f)) files.

(** Number of recognized source files immediately in directory [d]. *)
Definition sourceFileCount (files : list FileEntry) (d : Path) : nat :=
  length (List.filter (fun f => path_eqb (fileDir f) d && isSourceFile (fileName f)) files).

Definition directoriesOf (files : list FileEntry) : list Path :=
  distinctPaths [] (map fileDir files).

(** Modelled from the spec: the god-directory rule of section 4.7, "a
    directory's immediate (non-recursive) count of recognized source files
    > 15 -> warning; > 30 -> critical". *)
Definition godDirectoryFinding (files : list FileEntry) (d : Path)
  : option StructuralFinding :=
  let n := sourceFileCount files d in
  if GOD_DIRECTORY_CRITICAL <? n then
    Some (mkFinding GodDirectory "code-organization" critical [d]
            "directory holds too many source files" [])
  else if GOD_DIRECTORY_WARNING <? n then
    Some (mkFinding GodDirectory "code-organization" warning [d]
            "directory holds too many source files" [])
  else None.

Definition godDirectoryFindings (files : list FileEntry) : list StructuralFinding :=
  flat_map (fun d => match godDirectoryFinding files d with
                     | Some f => [f]
                     | None => []
                     end) (directoriesOf files).

(** *** Dependency graph *)

Definition isRelative (spec : string) : bool :=
  startsWith "./" spec || startsWith "../" spec.

(** The files a relative target may denote: the target itself, the target
    with each source extension, and the index file of the target directory. *)
Definition candidates (target : Path) : list Path :=
  target
    :: map (withExtension target) sourceExtensions
    ++ map (fun ext => target ++ ["index" +:+ ext]) sourceExtensions.

Definition isNode (nodes : list Path) (p : Path) : bool :=
  existsb (path_eqb p) nodes.

(** Modelled from the spec: target resolution of section 4.5.  A non-relative
    import gives no edge; a relative target that no file matches is dropped. *)
Definition resolveImport (nodes : list Path) (dir : Path) (spec : string)
  : option Path :=
  if isRelative spec then
    match followSegments dir (splitSlash "" spec) with
    | Some target => List.find (isNode nodes) (candidates target)
    | None => None
    end
  else None.

(** Modelled from the spec: the Dependency Graph Builder of section 4.5 (its
    source is not among the files): one node per analysed source file, one
    edge per relative import that resolves to a node. *)
Definition buildGraph (files : list FileEntry) : Graph :=
  let sources :=
    List.filter (fun f => isSourceFile (fileName f))
                (analysed files) in
  let nodes := map filePath sources in
  map (fun f =>
         (filePath f,
          omap (resolveImport nodes (fileDir f)) (importSpecifiers (fileContent f))))
      sources.

(** *** Findings and statistics *)

Definition cycleFinding (c : list Path) : StructuralFinding :=
  mkFinding CircularDependency "code-organization" cycleSeverity c
    "circular dependency between files" [].

Definition bump (name : string) (m : gmap string nat) : gmap string nat :=
  <[name := S (default 0 (m !! name))]> m.

Record AnalysisResult : Type := mkAnalysis {
  findings : list StructuralFinding;
  stats : CodeOrganizationStats
}.

(** Modelled from the spec: the Code Organization Analyzer of section 4.7
    (its source is not among the files): the skip rule first, then the
    detectors, the cycle findings, and the statistics of the whole tree. *)
Definition analyzeCodeOrganization (files : list FileEntry) : AnalysisResult :=
  let kept := analysed files in
  let sources := List.filter (fun f => isSourceFile (fileName f)) kept in
  let cycles :=
    detectCycles (buildGraph files) in
  mkAnalysis
    (godDirectoryFindings kept
       ++ otherDetectors kept
       ++ map cycleFinding cycles)
    (mkStats
       (length sources)
       (fold_left Nat.max (map (fun f => length (fileDir f)) kept) 0)
       (length cycles)
       (fold_left (fun m f => bump (classifyName (fileName f)) m) sources ∅)).

End Model.

(** The findings of one type. *)
Definition findingsOfType (t : FindingType) (fs : list StructuralFinding)
  : list StructuralFinding :=
  List.filter (fun f => findingType_eqb (findingType f) t) fs.

(** The god-directory findings about directory [d]. *)
Definition godFindingsFor (d : Path) (fs : list StructuralFinding)
  : list StructuralFinding :=
  List.filter (fun f => bool_decide (paths f = [d])) (findingsOfType GodDirectory fs).

(** ** Sample projects *)

(** A plain extractor of import targets: the quoted text that follows the
    word [from]. *)
Fixpoint untilQuote (q : ascii) (s : string) : option string :=
  match s with
  | EmptyString => None
  | String c s' =>
      if Ascii.eqb c q then Some EmptyString
      else match untilQuote q s' with
           | Some t => Some (String c t)
           | None => None
           end
  end.

Fixpoint quotedAfterFrom (s : string) : list string :=
  match s with
  | EmptyString => []
  | String c s' =>
      if startsWith "from '" s then
        match untilQuote "'" (substring 6 (String.length s) s) with
        | Some t => t :: quotedAfterFrom s'
        | None => quotedAfterFrom s'
        end
      else quotedAfterFrom s'
  end.

Definition tsExtensions : list string := [".ts"; ".tsx"; ".js"; ".jsx"].

Definition generatedMarker (content : string) : bool :=
  startsWith "// @generated" content.

Definition analyzeSample (files : list FileEntry) : AnalysisResult :=
  analyzeCodeOrganization tsExtensions generatedMarker quotedAfterFrom
    (fun _ => "other") warning (fun _ => []) files.



(** The three files of the test "detects A -> B -> C -> A circular
    dependency". *)
Definition threeCycle : list FileEntry :=
  [mkFile ["src"] "a.ts" "import { b } from './b';
export const a = 'a';";
   mkFile ["src"] "b.ts" "import { c } from './c';
export const b = 'b';";
   mkFile ["src"] "c.ts" "import { a } from './a';
export const c = 'c';"].

(** A letter of the alphabet as a string, to name sample files. *)
Definition letter (i : nat) : string := String (ascii_of_nat (65 + i)) EmptyString.

(** Twenty components in one directory, as in the test "detects directory
    with >15 source files". *)
Definition twentyComponents : list FileEntry :=
  map (fun i => mkFile ["src"; "components"] ("Component" +:+ letter i +:+ ".tsx")
                  "export const C = () => {};")
      (seq 0 20).

(** Sixteen source files in a test directory. *)
Definition sixteenTests : list FileEntry :=
  map (fun i => mkFile ["src"; "__tests__"] ("case" +:+ letter i +:+ ".test.ts")
                  "export const t = 1;")
      (seq 0 16).

(** ** Facts about paths and the detectors *)

Lemma path_eqb_true (p q : Path) : path_eqb p q = true <-> p = q.
Proof. unfold path_eqb. apply bool_decide_eq_true. Qed.

Lemma path_eqb_false (p q : Path) : path_eqb p q = false <-> p <> q.
Proof. unfold path_eqb. apply bool_decide_eq_false. Qed.

Lemma existsb_path_eqb (p : Path) (l : list Path) :
  existsb (path_eqb p) l = true <-> In p l.
Proof.
  rewrite existsb_exists. split.
  - intros [q [Hq E]]. apply path_eqb_true in E. subst. exact Hq.
  - intros H. exists p. split; [exact H | apply path_eqb_true; reflexivity].
Qed.

Lemma distinctPaths_spec (ps : list Path) :
  forall seen,
    List.NoDup (distinctPaths seen ps) /\
    forall p, In p (distinctPaths seen ps) <-> In p ps /\ ~ In p seen.
Proof.
  induction ps as [| q ps IH]; intros seen; simpl.
  - split; [constructor | tauto].
  - destruct (existsb (path_eqb q) seen) eqn:E.
    + apply existsb_path_eqb in E.
      destruct (IH seen) as [Hnd Hin]. split; [exact Hnd |].
      intros p. rewrite Hin. split; [tauto |].
      intros [[-> | H] Hns]; [contradiction | tauto].
    + assert (~ In q seen) as Hq.
      { intros H. apply existsb_path_eqb in H. congruence. }
      destruct (IH (q :: seen)) as [Hnd Hin]. split.
      * constructor; [| exact Hnd]. rewrite Hin. simpl. tauto.
      * intros p. simpl. rewrite Hin. simpl.
        destruct (decide (q = p)) as [-> | Hne]; tauto.
Qed.

Lemma filter_app_nil {A : Type} (f : A -> bool) (l1 l2 : list A) :
  List.filter f l2 = [] -> List.filter f (l1 ++ l2) = List.filter f l1.
Proof. intros H. rewrite List.filter_app, H. apply app_nil_r. Qed.

Lemma filter_none {A : Type} (f : A -> bool) (l : list A) :
  (forall x, In x l -> f x = false) -> List.filter f l = [].
Proof.
  induction l as [| x l IH]; simpl; intros H; [reflexivity |].
  rewrite (H x (or_introl eq_refl)). apply IH. intros y Hy. apply H. right. exact Hy.
Qed.

Section DetectorFacts.

Variable sourceExtensions : list string.

Lemma godDirectoryFinding_shape (files : list FileEntry) (d : Path) (f : StructuralFinding) :
  godDirectoryFinding sourceExtensions files d = Some f ->
  findingType f = GodDirectory /\ paths f = [d].
Proof.
  unfold godDirectoryFinding.
  destruct (GOD_DIRECTORY_CRITICAL <? _); [intros [= <-]; split; reflexivity |].
  destruct (GOD_DIRECTORY_WARNING <? _); [intros [= <-]; split; reflexivity |].
  discriminate.
Qed.

(** Among the findings of the directories [dirs], those about [d] are the
    finding of [d] itself, when [d] is one of them. *)
Lemma godFindings_select (files : list FileEntry) (d : Path) (dirs : list Path) :
  List.NoDup dirs ->
  List.filter (fun f => bool_decide (paths f = [d]))
    (List.filter (fun f => findingType_eqb (findingType f) GodDirectory)
       (flat_map (fun d' => match godDirectoryFinding sourceExtensions files d' with
                            | Some f => [f]
                            | None => []
                            end) dirs))
  = if existsb (path_eqb d) dirs
    then match godDirectoryFinding sourceExtensions files d with
         | Some f => [f]
         | None => []
         end
    else [].
Proof.
  induction dirs as [| d' dirs IH]; intros Hnd; [reflexivity |].
  inversion Hnd as [| ? ? Hnotin Hnd']; subst.
  simpl. rewrite !List.filter_app, (IH Hnd').
  destruct (path_eqb d d') eqn:E.
  - apply path_eqb_true in E. subst d'. simpl.
    assert (existsb (path_eqb d) dirs = false) as ->.
    { destruct (existsb (path_eqb d) dirs) eqn:E'; [| reflexivity].
      apply existsb_path_eqb in E'. contradiction. }
    rewrite app_nil_r.
    destruct (godDirectoryFinding sourceExtensions files d) as [f |] eqn:G;
      [| reflexivity].
    destruct (godDirectoryFinding_shape _ _ _ G) as [Ht Hp].
    simpl. rewrite Ht. simpl. rewrite Hp.
    rewrite bool_decide_eq_true_2 by reflexivity. reflexivity.
  - simpl. apply path_eqb_false in E.
    destruct (godDirectoryFinding sourceExtensions files d') as [f |] eqn:G;
      [| reflexivity].
    destruct (godDirectoryFinding_shape _ _ _ G) as [Ht Hp].
    simpl. rewrite Ht. simpl. rewrite Hp.
    rewrite bool_decide_eq_false_2; [reflexivity |].
    intros [= ->]. apply E. reflexivity.
Qed.

Lemma sourceFileCount_pos_dir (files : list FileEntry) (d : Path) :
  0 < sourceFileCount sourceExtensions files d ->
  existsb (path_eqb d) (directoriesOf files) = true.
Proof.
  unfold sourceFileCount, directoriesOf. intros H.
  apply existsb_path_eqb.
  apply (proj2 (distinctPaths_spec _ [])). split; [| intros []].
  destruct (List.filter _ files) as [| f l] eqn:E; [simpl in H; lia |].
  assert (In f (List.filter
                  (fun f => path_eqb (fileDir f) d
                            && isSourceFile sourceExtensions (fileName f)) files)) as Hin
      by (rewrite E; left; reflexivity).
  apply List.filter_In in Hin as [Hin Hf].
  apply andb_true_iff in Hf as [Hd _]. apply path_eqb_true in Hd. subst d.
  apply in_map. exact Hin.
Qed.

End DetectorFacts.

(** ** The order on paths *)

Lemma string_leb_refl (a : string) : String.leb a a = true.
Proof.
  destruct (String.leb_total a a) as [H | H]; exact H.
Qed.






(** ** The smallest node and the normal form of a cycle *)








(** ** Deduplication keeps one cycle per normal form *)




(** ** The search keeps its cycles simple *)

Lemma colorOf_setColor (u x : Path) (c : Color) (st : DfsState) :
  colorOf (setColor u c st) x = if decide (u = x) then c else colorOf st x.
Proof.
  unfold colorOf, setColor. simpl.
  destruct (decide (u = x)) as [-> | Hne].
  - rewrite lookup_insert_eq. reflexivity.
  - rewrite lookup_insert_ne by exact Hne. reflexivity.
Qed.


Lemma fold_left_invariant {A B : Type} (J : A -> Prop) (step : A -> B -> A) (l : list B) :
  (forall acc v, J acc -> J (step acc v)) ->
  forall acc, J acc -> J (fold_left step l acc).
Proof.
  intros Hstep. induction l as [| v l IH]; simpl; intros acc H; [exact H |].
  apply IH. apply Hstep. exact H.
Qed.




(** ** Two shapes of graph: the mutual import and the chain *)


Lemma visit_S (fuel : nat) (g : Graph) (chain : list Path) (u : Path) (st : DfsState) :
  visit (S fuel) g chain u st =
  setColor u Black
    (fold_left
       (fun acc v =>
          match colorOf acc v with
          | White => visit fuel g (u :: chain) v acc
          | Gray => addCycle (rev (chainTo v (u :: chain))) acc
          | Black => acc
          end)
       (successors g u) (setColor u Gray st)).
Proof. reflexivity. Qed.







(** ** The fuel of the search is enough *)

Lemma distinctPaths_length (ps : list Path) :
  forall seen, length (distinctPaths seen ps) <= length ps.
Proof.
  induction ps as [| p ps IH]; intros seen; simpl; [lia |].
  destruct (existsb (path_eqb p) seen); simpl.
  - specialize (IH seen). lia.
  - specialize (IH (p :: seen)). lia.
Qed.

Lemma whiteKeys_bound (g : Graph) (st : DfsState) : whiteKeys g st <= length g.
Proof.
  unfold whiteKeys, keys.
  etransitivity; [apply List.filter_length_le |].
  etransitivity; [apply distinctPaths_length |].
  rewrite length_map. lia.
Qed.

Lemma filter_length_mono {A : Type} (f h : A -> bool) (l : list A) :
  (forall x, In x l -> f x = true -> h x = true) ->
  length (List.filter f l) <= length (List.filter h l).
Proof.
  induction l as [| x l IH]; simpl; intros H; [lia |].
  assert (length (List.filter f l) <= length (List.filter h l)) as IH'
      by (apply IH; intros y Hy; apply H; right; exact Hy).
  destruct (f x) eqn:Ef.
  - rewrite (H x (or_introl eq_refl) Ef). simpl. lia.
  - destruct (h x); simpl; lia.
Qed.

Lemma filter_length_strict {A : Type} (f h : A -> bool) (l : list A) (u : A) :
  (forall x, In x l -> f x = true -> h x = true) ->
  In u l -> f u = false -> h u = true ->
  length (List.filter f l) < length (List.filter h l).
Proof.
  induction l as [| x l IH]; simpl; intros H Hin Hf Hh; [destruct Hin |].
  assert (forall y, In y l -> f y = true -> h y = true) as H'
      by (intros y Hy; apply H; right; exact Hy).
  destruct Hin as [-> | Hin].
  - rewrite Hf, Hh. simpl.
    pose proof (filter_length_mono f h l H'). lia.
  - specialize (IH H' Hin Hf Hh).
    destruct (f x) eqn:Ef.
    + rewrite (H x (or_introl eq_refl) Ef). simpl. lia.
    + destruct (h x); simpl; lia.
Qed.

Lemma darker_refl (st : DfsState) : darker st st.
Proof. intros x _. reflexivity. Qed.

Lemma darker_trans (a b c : DfsState) : darker a b -> darker b c -> darker a c.
Proof.
  intros H1 H2 x Hx. rewrite H2; [apply H1; exact Hx |].
  rewrite (H1 x Hx). exact Hx.
Qed.

Lemma darker_whiteKeys (g : Graph) (st st' : DfsState) :
  darker st st' -> whiteKeys g st' <= whiteKeys g st.
Proof.
  intros H. unfold whiteKeys. apply filter_length_mono.
  intros x _ Hx.
  destruct (colorOf st x) eqn:E; [reflexivity | |];
    rewrite (H x) in Hx by (rewrite E; discriminate);
    rewrite E in Hx; discriminate.
Qed.

Lemma darker_setColor (u : Path) (c : Color) (st : DfsState) :
  colorOf st u = White -> darker st (setColor u c st).
Proof.
  intros Hu x Hx. rewrite colorOf_setColor.
  destruct (decide (u = x)) as [-> | _]; [congruence | reflexivity].
Qed.

Lemma visit_darker (g : Graph) (fuel : nat) :
  forall chain u st,
    colorOf st u = White -> darker st (visit fuel g chain u st).
Proof.
  induction fuel as [| fuel IH]; intros chain u st Hu; [apply darker_refl |].
  rewrite visit_S.
  assert (darker st (setColor u Gray st)) as H1 by (apply darker_setColor; exact Hu).
  set (st1 := setColor u Gray st) in *.
  assert (darker st1
            (fold_left
               (fun acc v =>
                  match colorOf acc v with
                  | White => visit fuel g (u :: chain) v acc
                  | Gray => addCycle (rev (chainTo v (u :: chain))) acc
                  | Black => acc
                  end) (successors g u) st1)) as H2.
  { apply (fold_left_invariant (fun acc => darker st1 acc)); [| apply darker_refl].
    intros acc v Hacc.
    destruct (colorOf acc v) eqn:Ev; [| exact Hacc | exact Hacc].
    eapply darker_trans; [exact Hacc | apply IH; exact Ev]. }
  intros x Hx. rewrite colorOf_setColor.
  destruct (decide (u = x)) as [-> | _]; [congruence |].
  rewrite H2; [apply H1; exact Hx |].
  rewrite (H1 x Hx). exact Hx.
Qed.

Lemma successors_not_key (g : Graph) (u : Path) :
  ~ In u (keys g) -> successors g u = [].
Proof.
  intros Hn. unfold successors.
  destruct (List.find (fun e => path_eqb (fst e) u) g) as [e |] eqn:E; [| reflexivity].
  exfalso. apply Hn. apply List.find_some in E as [Hin He].
  apply path_eqb_true in He. subst u.
  apply (proj2 (distinctPaths_spec _ [])). split; [| intros []].
  apply in_map. exact Hin.
Qed.

Lemma whiteKeys_gray (g : Graph) (u : Path) (st : DfsState) :
  In u (keys g) -> colorOf st u = White ->
  whiteKeys g (setColor u Gray st) < whiteKeys g st.
Proof.
  intros Hin Hu. unfold whiteKeys.
  apply (filter_length_strict _ _ _ u).
  - intros x _ Hx. rewrite colorOf_setColor in Hx.
    destruct (decide (u = x)); [discriminate | exact Hx].
  - exact Hin.
  - rewrite colorOf_setColor, decide_True by reflexivity. reflexivity.
  - rewrite Hu. reflexivity.
Qed.

Lemma fold_left_agree {A B : Type} (I : A -> Prop) (f h : A -> B -> A) (l : list B) :
  (forall acc v, I acc -> f acc v = h acc v /\ I (h acc v)) ->
  forall acc, I acc -> fold_left f l acc = fold_left h l acc.
Proof.
  intros H. induction l as [| v l IH]; simpl; intros acc Hacc; [reflexivity |].
  destruct (H acc v Hacc) as [-> Hnext]. apply IH. exact Hnext.
Qed.

(** With more fuel than unvisited nodes, any further fuel changes nothing:
    the search does not run out of fuel. *)
Lemma visit_fuel (g : Graph) (fuel : nat) :
  forall chain u st fuel',
    colorOf st u = White ->
    whiteKeys g st < fuel ->
    fuel <= fuel' ->
    visit fuel' g chain u st = visit fuel g chain u st.
Proof.
  induction fuel as [| fuel IH]; intros chain u st fuel' Hu Hlt Hle; [lia |].
  destruct fuel' as [| fuel']; [lia |].
  rewrite !visit_S. f_equal.
  destruct (existsb (path_eqb u) (keys g)) eqn:Hkey.
  2: { rewrite (successors_not_key g u); [reflexivity |].
       intros H. apply existsb_path_eqb in H. congruence. }
  apply existsb_path_eqb in Hkey.
  pose proof (whiteKeys_gray g u st Hkey Hu) as Hgray.
  apply (fold_left_agree (fun acc => whiteKeys g acc < fuel)); [| lia].
  intros acc v Hacc.
  destruct (colorOf acc v) eqn:Ev.
  - split; [apply IH; [exact Ev | exact Hacc | lia] |].
    pose proof (darker_whiteKeys g _ _ (visit_darker g fuel (u :: chain) v acc Ev)).
    lia.
  - split; [reflexivity | exact Hacc].
  - split; [reflexivity | exact Hacc].
Qed.

Lemma searchAll_fuel (g : Graph) (fuel : nat) :
  S (length g) <= fuel -> searchWith fuel g = searchAll g.
Proof.
  intros Hle. unfold searchAll, searchWith.
  apply (fold_left_agree (fun _ => True)); [| exact I].
  intros acc e _. split; [| exact I].
  destruct (colorOf acc (fst e)) eqn:E; [| reflexivity | reflexivity].
  apply visit_fuel; [exact E | | exact Hle].
  pose proof (whiteKeys_bound g acc). lia.
Qed.

(** ** The search reports cycles of the graph only *)










(** ** God directories *)

Lemma findingsOfType_app (t : FindingType) (l1 l2 : list StructuralFinding) :
  findingsOfType t (l1 ++ l2) = findingsOfType t l1 ++ findingsOfType t l2.
Proof. unfold findingsOfType. apply List.filter_app. Qed.

Lemma findingsOfType_none (t : FindingType) (l : list StructuralFinding) :
  (forall f, In f l -> findingType f <> t) -> findingsOfType t l = [].
Proof.
  intros H. unfold findingsOfType. apply filter_none.
  intros f Hf. specialize (H f Hf).
  destruct (findingType f), t; try reflexivity; exfalso; apply H; reflexivity.
Qed.

Lemma findingsOfType_cycles (sev : Severity) (cs : list (list Path)) :
  findingsOfType GodDirectory (map (cycleFinding sev) cs) = [] /\
  findingsOfType CircularDependency (map (cycleFinding sev) cs) = map (cycleFinding sev) cs.
Proof.
  unfold findingsOfType.
  induction cs as [| c cs [IH1 IH2]]; simpl; [split; reflexivity |].
  rewrite IH1, IH2. split; reflexivity.
Qed.


(** The skip rule comes before every detector: sixteen recognized source
    files sit in [src/__tests__], none of them is analysed, and the analysis
    emits no finding for the directory. *)
Lemma skipped_directory_is_not_flagged :
  sourceFileCount tsExtensions sixteenTests ["src"; "__tests__"] = 16 /\
  godFindingsFor ["src"; "__tests__"] (findings (analyzeSample sixteenTests)) = [] /\
  findings (analyzeSample sixteenTests) = [].
Proof. vm_compute. repeat split. Qed.

(** [C5] For every directory [d], let [n] be the immediate (non-recursive)
    count of its recognized source files among the analysed files, those
    that the skip rule of the analyzer, applied before every detector, leaves
    in.  If [n <= 15] the analysis emits no god-directory finding for [d];
    if [15 < n <= 30] it emits exactly one, with severity warning; if
    [n > 30] it emits exactly one, with severity critical. *)
Theorem god_directory_thresholds
        (sourceExtensions : list string) (isAutoGenerated : string -> bool)
        (importSpecifiers : string -> list string) (classifyName : string -> string)
        (cycleSeverity : Severity)
        (otherDetectors : list FileEntry -> list StructuralFinding)
        (otherDetectors_types :
           forall files f, In f (otherDetectors files) -> findingType f <> GodDirectory)
        (files : list FileEntry) (d : Path) :
  let n := sourceFileCount sourceExtensions (analysed isAutoGenerated files) d in
  let reported :=
    godFindingsFor d
      (findings (analyzeCodeOrganization sourceExtensions isAutoGenerated
                   importSpecifiers classifyName cycleSeverity otherDetectors files)) in
  (n <= 15 -> reported = []) /\
  (15 < n <= 30 -> exists f, reported = [f] /\ severity f = warning) /\
  (30 < n -> exists f, reported = [f] /\ severity f = critical).
Proof.
  intros n reported.
  assert (reported =
          if existsb (path_eqb d) (directoriesOf (analysed isAutoGenerated files))
          then match godDirectoryFinding sourceExtensions
                       (analysed isAutoGenerated files) d with
               | Some f => [f]
               | None => []
               end
          else []) as Hrep.
  { unfold reported, godFindingsFor, analyzeCodeOrganization. cbn [findings].
    rewrite !findingsOfType_app.
    rewrite (findingsOfType_none GodDirectory (otherDetectors _))
      by (intros f Hf; eapply otherDetectors_types; exact Hf).
    rewrite (proj1 (findingsOfType_cycles _ _)), !app_nil_r.
    unfold findingsOfType, godDirectoryFindings.
    apply godFindings_select.
    apply (proj1 (distinctPaths_spec _ [])). }
  assert (godDirectoryFinding sourceExtensions (analysed isAutoGenerated files) d =
          if 30 <? n then
            Some (mkFinding GodDirectory "code-organization" critical [d]
                    "directory holds too many source files" [])
          else if 15 <? n then
            Some (mkFinding GodDirectory "code-organization" warning [d]
                    "directory holds too many source files" [])
          else None) as Hgod by reflexivity.
  rewrite Hgod in Hrep. clear Hgod.
  split; [| split].
  - intros Hn. rewrite Hrep.
    rewrite (proj2 (Nat.ltb_ge 30 n)) by lia.
    rewrite (proj2 (Nat.ltb_ge 15 n)) by lia.
    destruct (existsb _ _); reflexivity.
  - intros Hn. rewrite Hrep.
    rewrite (sourceFileCount_pos_dir sourceExtensions _ d) by (fold n; lia).
    rewrite (proj2 (Nat.ltb_ge 30 n)) by lia.
    rewrite (proj2 (Nat.ltb_lt 15 n)) by lia.
    eexists. split; reflexivity.
  - intros Hn. rewrite Hrep.
    rewrite (sourceFileCount_pos_dir sourceExtensions _ d) by (fold n; lia).
    rewrite (proj2 (Nat.ltb_lt 30 n)) by lia.
    eexists. split; reflexivity.
Qed.

(** The theorem at the twenty components of the test: one warning. *)
Lemma god_directory_thresholds_witness :
  exists f,
    godFindingsFor ["src"; "components"] (findings (analyzeSample twentyComponents)) = [f] /\
    severity f = warning.
Proof.
  apply (proj1 (proj2 (god_directory_thresholds tsExtensions generatedMarker
                         quotedAfterFrom (fun _ => "other") warning (fun _ => [])
                         (fun _ _ (H : False) => match H with end)
                         twentyComponents ["src"; "components"]))).
  vm_compute. split; repeat constructor.
Defined.

(** ** Circular dependencies *)



End CodeOrganization.
